(** * STRATUS client: flight model, input mapping and scene composition

    A shallow embedding of [client/main.js].  JavaScript numbers are
    modelled as the real numbers [R]: rounding, NaN and the infinities of
    IEEE-754 doubles are outside the model, so the statements proved
    over [R] are bounds, orderings and signs, which rounding keeps.
    Where the last digits matter (the speed formula), module [Binary64]
    evaluates the same lines in double precision.  Objects that the
    program shares by reference (the ground material captured by the
    texture callback) live in an explicit store and are named by their
    index. *)

From Stdlib Require Import Reals Lra ZArith.
From Corelib Require PrimFloat.
From stdpp Require Import base list strings.

#[local] Set Warnings "-inexact-float".

Local Open Scope R_scope.

(** ** The parts of three.js r0.155 that [main.js] calls *)

Module THREE.

Module MathUtils.
Definition DEG2RAD : R := PI / 180.
Definition degToRad (degrees : R) : R := degrees * DEG2RAD.
Definition lerp (x y t : R) : R := (1 - t) * x + t * y.
End MathUtils.

Module Euler.
(** Rotation order is the default ['XYZ']. *)
Record t : Type := mk { x : R; y : R; z : R }.
End Euler.

Module Quaternion.
Record t : Type := mk { x : R; y : R; z : R; w : R }.

(** [setFromEuler] for order ['XYZ']. *)
Definition setFromEuler (e : Euler.t) : t :=
  let c1 := cos (Euler.x e / 2) in
  let c2 := cos (Euler.y e / 2) in
  let c3 := cos (Euler.z e / 2) in
  let s1 := sin (Euler.x e / 2) in
  let s2 := sin (Euler.y e / 2) in
  let s3 := sin (Euler.z e / 2) in
  mk (s1 * c2 * c3 + c1 * s2 * s3)
     (c1 * s2 * c3 - s1 * c2 * s3)
     (c1 * c2 * s3 + s1 * s2 * c3)
     (c1 * c2 * c3 - s1 * s2 * s3).
End Quaternion.

Module Vector3.
Record t : Type := mk { x : R; y : R; z : R }.

(** [applyQuaternion]: quat * vector * inverse quat. *)
Definition applyQuaternion (v : t) (q : Quaternion.t) : t :=
  let qx := Quaternion.x q in
  let qy := Quaternion.y q in
  let qz := Quaternion.z q in
  let qw := Quaternion.w q in
  let ix := qw * x v + qy * z v - qz * y v in
  let iy := qw * y v + qz * x v - qx * z v in
  let iz := qw * z v + qx * y v - qy * x v in
  let iw := - qx * x v - qy * y v - qz * z v in
  mk (ix * qw + iw * - qx + iy * - qz - iz * - qy)
     (iy * qw + iw * - qy + iz * - qx - ix * - qz)
     (iz * qw + iw * - qz + ix * - qy - iy * - qx).

Definition length (v : t) : R := sqrt (x v * x v + y v * y v + z v * z v).

Definition multiplyScalar (v : t) (scalar : R) : t :=
  mk (x v * scalar) (y v * scalar) (z v * scalar).

Definition divideScalar (v : t) (scalar : R) : t :=
  multiplyScalar v (1 / scalar).

(** [normalize] divides by [this.length() || 1]. *)
Definition normalize (v : t) : t :=
  divideScalar v (if Req_dec_T (length v) 0 then 1 else length v).

Definition add (a v : t) : t := mk (x a + x v) (y a + y v) (z a + z v).
End Vector3.

(** An [Object3D] keeps [quaternion] in step with [rotation] through
    the Euler change callback; the program only ever writes [rotation],
    so the quaternion is the function [quaternion] of the group. *)
Record Group : Type := mkGroup { rotation : Euler.t; position : Vector3.t }.

Definition quaternion (g : Group) : Quaternion.t :=
  Quaternion.setFromEuler (rotation g).

Inductive Wrapping : Type :=
  RepeatWrapping | ClampToEdgeWrapping | MirroredRepeatWrapping.

(** A texture as the loader hands it to [onLoad]: the image it was
    loaded from and the default wrapping and repeat. *)
Record Texture : Type := mkTexture {
  image : string;
  wrapS : Wrapping;
  wrapT : Wrapping;
  repeat : R * R
}.

Definition new_Texture (url : string) : Texture :=
  mkTexture url ClampToEdgeWrapping ClampToEdgeWrapping (1, 1).

Record MeshStandardMaterial : Type := mkMaterial {
  color : Z;
  metalness : R;
  roughness : R;
  map : option Texture;
  needsUpdate : bool
}.

Record Fog : Type := mkFog { fog_color : Z; fog_near : R; fog_far : R }.

End THREE.

Import THREE.

(** ** [clamp] and the [Airplane] class *)

Definition clamp (value min max : R) : R := Rmax min (Rmin max value).

Record Airplane : Type := mkAirplane {
  group : Group;
  throttle : R;
  pitchInput : R;
  rollInput : R;
  velocity : R
}.

(** The constructor; [buildModel] adds the fuselage, wing and tail meshes
    and ends with [this.group.position.set(0, 5, 0)].  The meshes and
    their three materials only serve rendering: nothing reads or writes
    them after construction, and they are not part of the model. *)
Definition buildModel (g : Group) : Group :=
  mkGroup (rotation g) (Vector3.mk 0 5 0).

Definition new_Airplane : Airplane :=
  mkAirplane (buildModel (mkGroup (Euler.mk 0 0 0) (Vector3.mk 0 0 0)))
             0.3 0 0 0.

(** Lines 124-126 of [update]: the unit forward vector of a group. *)
Definition forward (g : Group) : Vector3.t :=
  Vector3.normalize
    (Vector3.applyQuaternion (Vector3.mk 0 0 (-1)) (quaternion g)).

Definition update (this : Airplane) (delta : R) : Airplane :=
  let pitchInput' := clamp (pitchInput this) (-1) 1 in
  let rollInput' := clamp (rollInput this) (-1) 1 in
  let maxPitchAngle := MathUtils.degToRad 30 in
  let maxRollAngle := MathUtils.degToRad 75 in
  let pitchRate := MathUtils.degToRad 30 in
  let rollRate := MathUtils.degToRad 60 in
  let rot := rotation (group this) in
  let rx := Euler.x rot + pitchInput' * pitchRate * delta in
  let rz := Euler.z rot + rollInput' * rollRate * delta in
  let rx := clamp rx (- maxPitchAngle) maxPitchAngle in
  let rz := clamp rz (- maxRollAngle) maxRollAngle in
  let rot' := Euler.mk rx (Euler.y rot) rz in
  let minSpeed := 20 in
  let maxSpeed := 150 in
  let velocity' := MathUtils.lerp minSpeed maxSpeed (throttle this) in
  let fwd := forward (mkGroup rot' (position (group this))) in
  let displacement := Vector3.multiplyScalar fwd (velocity' * delta) in
  let pos := Vector3.add (position (group this)) displacement in
  let pos' :=
    if Rlt_dec (Vector3.y pos) 2
    then Vector3.mk (Vector3.x pos) 2 (Vector3.z pos)
    else pos in
  mkAirplane (mkGroup rot' pos') (throttle this) pitchInput' rollInput' velocity'.

(** ** The scene catalogue *)

Record SceneDefinition : Type := mkSceneDefinition {
  id : string;
  name : string;
  skyColor : Z;
  fogColor : Z;
  groundColor : Z;
  ambient : Z;
  directional : Z;
  groundTexture : option string
}.

Definition coast : SceneDefinition :=
  mkSceneDefinition "coast" "Côte luminescente"
    0x92aee0 0x88a8c0 0x47677c 0x445570 0xffdcb2 (Some "assets/coast.png").

Definition alps : SceneDefinition :=
  mkSceneDefinition "alps" "Alpes d’ardoise"
    0xa9cce3 0xcfd7e5 0x6d7a8a 0x586273 0xeef5ff (Some "assets/alps.png").

Definition desert : SceneDefinition :=
  mkSceneDefinition "desert" "Désert mirage"
    0xf1c27d 0xe4b481 0xd5a86d 0x8d6e4a 0xfff1c2 (Some "assets/desert.png").

Definition SCENES : list SceneDefinition := [coast; alps; desert].

(** ** The world: scene graph, material store and pending texture loads *)

(** A ground material object is named by its index in the store. *)
Definition MaterialRef : Type := nat.

Inductive Object3D : Type :=
  | AmbientLight (color : Z) (intensity : R)
  | DirectionalLight (color : Z) (intensity : R) (position : Vector3.t)
      (castShadow : bool) (mapSize : R * R) (near far : R)
  | GroundMesh (width height : R) (material : MaterialRef) (rotation_x : R)
      (receiveShadow : bool)
  | PlayerGroup.

Record Scene : Type := mkScene {
  background : Z;
  fog : Fog;
  children : list Object3D
}.

(** A call of [textureLoader.load(url, onLoad)] whose image has not yet
    arrived.  The [onLoad] closure of [buildScene] captures the local
    [groundMat]; [target] is that captured object. *)
Record PendingLoad : Type := mkPendingLoad { url : string; target : MaterialRef }.

(** The global variables [scene] and [player]; [materials] holds the
    ground materials that the calls of [buildScene] have created so far,
    in order of creation (the objects a texture callback can capture),
    not the materials of the airplane meshes.  [camera], [renderer] and
    [clock] only serve rendering. *)
Record Session : Type := mkSession {
  scene : Scene;
  player : Airplane;
  materials : list MeshStandardMaterial;
  pendingLoads : list PendingLoad
}.

(** The body of the callback passed to [textureLoader.load]. *)
Definition onLoad (groundMat : MaterialRef) (tex : Texture)
    (mats : list MeshStandardMaterial) : list MeshStandardMaterial :=
  let tex' := mkTexture (image tex) RepeatWrapping RepeatWrapping (500, 500) in
  alter (fun m => mkMaterial (color m) (metalness m) (roughness m) (Some tex') true)
        groundMat mats.

(** JavaScript truthiness of [def.groundTexture]: absent and the empty
    string are falsy. *)
Definition truthy (s : option string) : option string :=
  match s with
  | Some u => if decide (u = "") then None else Some u
  | None => None
  end.

(** [buildScene] assigns the globals [scene] and [player] afresh; of the
    previous state it keeps only the heap and the loads in flight. *)
Definition buildScene (def : SceneDefinition)
    (mats : list MeshStandardMaterial) (pending : list PendingLoad) : Session :=
  let ambientLight := AmbientLight (ambient def) 0.6 in
  let dirLight :=
    DirectionalLight (directional def) 1.0 (Vector3.mk (-1) 1.5 1) true
                     (2048, 2048) 10 5000 in
  let groundMat : MaterialRef := length mats in
  let mats' := mats ++ [mkMaterial (groundColor def) 0.0 1.0 None false] in
  let pending' :=
    match truthy (groundTexture def) with
    | Some u => pending ++ [mkPendingLoad u groundMat]
    | None => pending
    end in
  let ground := GroundMesh 50000 50000 groundMat (- PI / 2) true in
  mkSession
    (mkScene (skyColor def) (mkFog (fogColor def) 200 15000)
             [ambientLight; dirLight; ground; PlayerGroup])
    new_Airplane mats' pending'.

(** The state of [init] just before its call of [animate]:
    [buildScene(SCENES[0])] has run on an empty heap.  The first frame
    follows at once, with delta 0 from the newly created clock. *)
Definition init : Session := buildScene coast [] [].

(** [SCENES.find((s) => s.id === selectedId)]. *)
Definition find_scene (selectedId : string) : option SceneDefinition :=
  List.find (fun s => bool_decide (id s = selectedId)) SCENES.

(** The [change] listener of the scene selector. *)
Definition onSceneChange (selectedId : string) (s : Session) : Session :=
  match find_scene selectedId with
  | Some def => buildScene def (materials s) (pendingLoads s)
  | None => s
  end.

(** The [keydown] and [keyup] listeners, acting on [player]. *)
Definition keydown (key : string) (p : Airplane) : Airplane :=
  match key with
  | "ArrowUp" =>
      mkAirplane (group p) (clamp (throttle p + 0.05) 0 1)
                 (pitchInput p) (rollInput p) (velocity p)
  | "ArrowDown" =>
      mkAirplane (group p) (clamp (throttle p - 0.05) 0 1)
                 (pitchInput p) (rollInput p) (velocity p)
  | "w" | "W" => mkAirplane (group p) (throttle p) (-1) (rollInput p) (velocity p)
  | "s" | "S" => mkAirplane (group p) (throttle p) 1 (rollInput p) (velocity p)
  | "a" | "A" => mkAirplane (group p) (throttle p) (pitchInput p) (-1) (velocity p)
  | "d" | "D" => mkAirplane (group p) (throttle p) (pitchInput p) 1 (velocity p)
  | _ => p
  end%string.

Definition keyup (key : string) (p : Airplane) : Airplane :=
  match key with
  | "w" | "W" | "s" | "S" =>
      mkAirplane (group p) (throttle p) 0 (rollInput p) (velocity p)
  | "a" | "A" | "d" | "D" =>
      mkAirplane (group p) (throttle p) (pitchInput p) 0 (velocity p)
  | _ => p
  end%string.

Definition with_player (f : Airplane -> Airplane) (s : Session) : Session :=
  mkSession (scene s) (f (player s)) (materials s) (pendingLoads s).

(** [animate]: one frame advances the flight model by [clock.getDelta()]. *)
Definition animate (delta : R) (s : Session) : Session :=
  with_player (fun p => update p delta) s.

(** What the host can deliver to the page. *)
Inductive Event : Type :=
  | KeyDown (key : string)
  | KeyUp (key : string)
  | SceneChange (selectedId : string)
  | Frame (delta : R)
  | TextureLoaded (k : nat)
  | TextureFailed (k : nat).

(** The [k]-th load in flight completes and runs its callback. *)
Definition textureLoaded (k : nat) (s : Session) : Session :=
  match pendingLoads s !! k with
  | Some l =>
      mkSession (scene s) (player s)
                (onLoad (target l) (new_Texture (url l)) (materials s))
                (delete k (pendingLoads s))
  | None => s
  end.

(** The [k]-th load fails; no [onError] was given, so nothing runs. *)
Definition textureFailed (k : nat) (s : Session) : Session :=
  mkSession (scene s) (player s) (materials s) (delete k (pendingLoads s)).

Definition step (s : Session) (e : Event) : Session :=
  match e with
  | KeyDown key => with_player (keydown key) s
  | KeyUp key => with_player (keyup key) s
  | SceneChange selectedId => onSceneChange selectedId s
  | Frame delta => animate delta s
  | TextureLoaded k => textureLoaded k s
  | TextureFailed k => textureFailed k s
  end.

Definition run (s : Session) (es : list Event) : Session := foldl step s es.

(** The clock never runs backwards. *)
Definition admissible (e : Event) : Prop :=
  match e with
  | Frame delta => 0 <= delta
  | _ => True
  end.

Inductive reachable : Session -> Prop :=
  | reachable_init : reachable init
  | reachable_step s e : reachable s -> admissible e -> reachable (step s e).

(** ** Double precision *)

(** The throttle and speed lines of [main.js] with the arithmetic the
    engine uses, IEEE-754 binary64. *)
Module Binary64.

Import PrimFloat.
Local Open Scope float_scope.

(** [Math.max] and [Math.min]: NaN when an argument is NaN; -0 counts as
    smaller than +0. *)
Definition Math_max (a b : float) : float :=
  if (is_nan a || is_nan b)%bool then nan
  else if a <? b then b
  else if b <? a then a
  else if get_sign a then b else a.

Definition Math_min (a b : float) : float :=
  if (is_nan a || is_nan b)%bool then nan
  else if a <? b then a
  else if b <? a then b
  else if get_sign a then a else b.

Definition clamp (value min max : float) : float := Math_max min (Math_min max value).

(** three.js [MathUtils.lerp]. *)
Definition lerp (x y t : float) : float := (1 - t) * x + t * y.

(** [this.throttle = 0.3] in the constructor. *)
Definition initial_throttle : float := 0.3.

(** The ['ArrowUp'] and ['ArrowDown'] cases of the [keydown] listener,
    as functions of [player.throttle]. *)
Definition ArrowUp (throttle : float) : float := clamp (throttle + 0.05) 0 1.

Definition ArrowDown (throttle : float) : float := clamp (throttle - 0.05) 0 1.

(** Lines 121-123 of [update]: the value written to [this.velocity]. *)
Definition update_velocity (throttle : float) : float :=
  let minSpeed := 20 in
  let maxSpeed := 150 in
  lerp minSpeed maxSpeed throttle.

End Binary64.

(** ** Sample states and event sequences *)

(** An airplane resting against the upper pitch stop and the lower roll
    stop, with both inputs pushed against the stops. *)
Definition at_limits : Airplane :=
  mkAirplane
    (mkGroup (Euler.mk (MathUtils.degToRad 30) 0 (- MathUtils.degToRad 75))
             (Vector3.mk 0 5 0))
    0.3 1 (-1) 0.

(** Nose down at full throttle for a while. *)
Definition dive : list Event :=
  [KeyDown "s"; KeyDown "ArrowUp"; Frame 0; Frame 1; Frame 0.5; KeyUp "s"; Frame 2].

(** Start-up, the first frame, then one press of the throttle-up key. *)
Definition throttled_up : Session := run init [Frame 0; KeyDown "ArrowUp"].

(** An airplane whose pitch input lies outside [-1, 1]; no event
    sequence produces it. *)
Definition overdriven : Airplane :=
  mkAirplane (group new_Airplane) 0.3 2 0 59.

(** The texture load that [init] starts for the first scene. *)
Definition coast_load : PendingLoad := mkPendingLoad "assets/coast.png" 0%nat.

(** After a switch: the new scene's texture arrives between two frames. *)
Definition after_switch : list Event := [Frame 0; TextureLoaded 1; Frame 1].

(** Observations used in the statements. *)
Definition pitch (p : Airplane) : R := Euler.x (rotation (group p)).
Definition yaw (p : Airplane) : R := Euler.y (rotation (group p)).
Definition roll (p : Airplane) : R := Euler.z (rotation (group p)).
Definition altitude (p : Airplane) : R := Vector3.y (position (group p)).

Definition maxPitchAngle : R := MathUtils.degToRad 30.
Definition maxRollAngle : R := MathUtils.degToRad 75.

(** The bounds of the data model: inputs, angles and altitude. *)
Definition in_bounds (p : Airplane) : Prop :=
  -1 <= pitchInput p <= 1 /\ -1 <= rollInput p <= 1
  /\ - maxPitchAngle <= pitch p <= maxPitchAngle
  /\ - maxRollAngle <= roll p <= maxRollAngle
  /\ 2 <= altitude p.

(** The material objects a scene graph points to. *)
Definition scene_materials (sc : Scene) : list MaterialRef :=
  omap (fun o => match o with
                 | GroundMesh _ _ material _ _ => Some material
                 | _ => None
                 end) (children sc).

(** The World that is rendered: the scene graph together with the
    current contents of the materials it points to. *)
Definition World (s : Session) : Scene * list (option MeshStandardMaterial) :=
  (scene s, (fun r => materials s !! r) <$> scene_materials (scene s)).

(** Every load in flight targets an object that has been allocated. *)
Definition store_ok (s : Session) : Prop :=
  Forall (fun l => (target l < length (materials s))%nat) (pendingLoads s).

(** The load [l] was started for a World older than the current one:
    its target was allocated before every material of the current scene. *)
Definition older_than_world (l : PendingLoad) (s : Session) : Prop :=
  (target l < length (materials s))%nat
  /\ Forall (fun g => (target l < g)%nat) (scene_materials (scene s)).

(** ** Further observations of the flight model *)

(** three.js [Vector3.lengthSq]. *)
Definition lengthSq (v : Vector3.t) : R :=
  Vector3.x v * Vector3.x v + Vector3.y v * Vector3.y v + Vector3.z v * Vector3.z v.

(** The [case] labels of the [keyup] listener. *)
Definition keyup_keys : list string := ["w"; "W"; "s"; "S"; "a"; "A"; "d"; "D"].

(** What the input listeners can leave in an input field. *)
Definition key_value (v : R) : Prop := v = -1 \/ v = 0 \/ v = 1.

(** Facts that hold of the airplane in every reachable state. *)
Definition flight_invariant (p : Airplane) : Prop :=
  yaw p = 0
  /\ 0 <= throttle p <= 1
  /\ key_value (pitchInput p) /\ key_value (rollInput p)
  /\ (velocity p = 0 \/ 20 <= velocity p <= 150).

(** ** Further observations of the world *)

(** The contents of the material of the ground mesh of the current scene. *)
Definition groundMaterial (s : Session) : option MeshStandardMaterial :=
  head (scene_materials (scene s)) ≫= fun r => materials s !! r.

(** A scene graph with the identity of its material objects forgotten. *)
Definition erase_material (o : Object3D) : Object3D :=
  match o with
  | GroundMesh width height _ rotation_x receiveShadow =>
      GroundMesh width height 0%nat rotation_x receiveShadow
  | _ => o
  end.

(** What a World looks like: lights, fog, background and meshes, with the
    contents of the materials in place of the objects themselves. *)
Definition appearance (s : Session)
    : Z * Fog * list Object3D * list (option MeshStandardMaterial) :=
  (background (scene s), fog (scene s), erase_material <$> children (scene s),
   snd (World s)).

(** The scene has one ground mesh, and its material is the object
    allocated last. *)
Definition scene_ok (s : Session) : Prop :=
  exists g : MaterialRef,
    scene_materials (scene s) = [g] /\ S g = length (materials s).

(** ** The HTTP server ([server/index.js]) *)

Module Server.

Import Stdlib.Strings.Ascii.

(** JavaScript values that are sent as, or parsed from, JSON. *)
#[local] Unset Elimination Schemes.
Inductive JSON : Type :=
  | JNull
  | JBool (b : bool)
  | JNumber (n : R)
  | JString (s : string)
  | JArray (items : list JSON)
  | JObject (fields : list (string * JSON)).
#[local] Set Elimination Schemes.

Record Presets : Type := mkPresets { weather : list string; time : list string }.

Record SceneEntry : Type := mkSceneEntry {
  id : string;
  name : string;
  presets : Presets
}.

Definition scenes : list SceneEntry :=
  [ mkSceneEntry "coast" "Côte luminescente"
      (mkPresets ["clair"; "couvert"; "orageux"]
                 ["aube"; "midi"; "golden hour"; "nuit"]);
    mkSceneEntry "alps" "Alpes d’ardoise"
      (mkPresets ["clair"; "neige"; "brumeux"]
                 ["aube"; "midi"; "golden hour"; "nuit"]);
    mkSceneEntry "desert" "Désert mirage"
      (mkPresets ["clair"; "chaleur"; "orageux"]
                 ["aube"; "midi"; "golden hour"; "nuit"]) ].

Definition presets_json (p : Presets) : JSON :=
  JObject [("weather", JArray (JString <$> weather p));
           ("time", JArray (JString <$> time p))].

(** What Node provides: the [path] and [fs] modules, [JSON.parse],
    [String.prototype.toLowerCase] and [__dirname].  [readFileSync] and
    [JSON_parse] give [None] where the JavaScript function throws.
    [isFile p] stands for [fs.statSync(p).isFile()] on a path that
    [existsSync] has just found; a throw of [statSync] is outside the
    model. *)
Record Node : Type := mkNode {
  dirname : string;
  normalize : string -> string;
  join : string -> string -> string;
  extname : string -> string;
  toLowerCase : string -> string;
  existsSync : string -> bool;
  isFile : string -> bool;
  readFileSync : string -> option string;
  JSON_parse : string -> option JSON
}.

Inductive Body : Type :=
  | Empty
  | Json (data : JSON)
  | File (data : string).

(** A response as written by [res.writeHead] and [res.end]; the body of
    [sendJSON] is [JSON.stringify(data)], kept as the value [data]. *)
Record Response : Type := mkResponse {
  status : Z;
  headers : list (string * string);
  body : Body
}.

Definition publicDir (node : Node) : string := join node (dirname node) "public".

Definition sendJSON (status : Z) (data : JSON) : Response :=
  mkResponse status
    [("Content-Type", "application/json");
     ("Access-Control-Allow-Origin", "*");
     ("Access-Control-Allow-Methods", "GET, POST, OPTIONS");
     ("Access-Control-Allow-Headers", "Content-Type")]
    (Json data).

Definition dot : ascii := "."%char.

(** [.replace(/^\.+/, '')]: drop the dots the string starts with. *)
Fixpoint strip_leading_dots (s : string) : string :=
  match s with
  | String "."%char rest => strip_leading_dots rest
  | _ => s
  end.

Definition startsWith (s searchString : string) : bool := String.prefix searchString s.

Definition mimeMap : list (string * string) :=
  [(".html", "text/html");
   (".js", "text/javascript");
   (".mjs", "text/javascript");
   (".css", "text/css");
   (".json", "application/json");
   (".png", "image/png");
   (".jpg", "image/jpeg");
   (".jpeg", "image/jpeg");
   (".svg", "image/svg+xml");
   (".gif", "image/gif");
   (".ico", "image/x-icon");
   (".wav", "audio/wav");
   (".mp3", "audio/mpeg")].

(** [mimeMap[ext] || 'application/octet-stream'].  [path.extname] gives
    the empty string or a string that starts with a dot, so the lookup
    can only find the object's own keys. *)
Definition mime_of (ext : string) : string :=
  match List.find (fun kv => bool_decide (fst kv = ext)) mimeMap with
  | Some kv => snd kv
  | None => "application/octet-stream"
  end.

(** [serveStatic] returns [true] after writing a response ([Some]) and
    [false] without having written anything ([None]). *)
Definition serveStatic (node : Node) (reqPath : string) : option Response :=
  let safePath := strip_leading_dots (normalize node reqPath) in
  let filePath := join node (publicDir node) safePath in
  if negb (startsWith filePath (publicDir node)) then None
  else
    let fileToServe := filePath in
    if existsSync node fileToServe && isFile node fileToServe then
      let ext := toLowerCase node (extname node fileToServe) in
      let mime := mime_of ext in
      match readFileSync node fileToServe with
      | Some data =>
          Some (mkResponse 200
                  [("Content-Type", mime); ("Access-Control-Allow-Origin", "*")]
                  (File data))
      | None => None
      end
    else
      let indexPath := join node (publicDir node) "index.html" in
      if existsSync node indexPath then
        match readFileSync node indexPath with
        | Some data =>
            Some (mkResponse 200
                    [("Content-Type", "text/html"); ("Access-Control-Allow-Origin", "*")]
                    (File data))
        | None => None
        end
      else None.

(** [parsed.query.scene]: absent, one string, or an array when the
    parameter is repeated. *)
Inductive QueryValue : Type :=
  | QAbsent
  | QString (s : string)
  | QArray (items : list string).

(** A request for which [url.parse(req.url, true)] has returned, with
    the chunks its ['data'] events deliver, each as the string that
    [body += chunk] appends (the chunk decoded on its own). *)
Record Request : Type := mkRequest {
  method : string;
  pathname : string;
  query_scene : QueryValue;
  chunks : list string
}.

(** [scenes.find((s) => s.id === sceneId)]: only a string can be
    strictly equal to an id. *)
Definition find_scene (sceneId : QueryValue) : option SceneEntry :=
  match sceneId with
  | QString v => List.find (fun s => bool_decide (id s = v)) scenes
  | _ => None
  end.

(** [body += chunk] for each decoded chunk, from the empty string. *)
Definition read_body (cs : list string) : string := foldl String.append ""%string cs.

(** The request listener from its first [if] on, for a request that
    [url.parse] has parsed: the response it sends and what it writes to
    the console. *)
Definition handle (node : Node) (req : Request) : Response * list JSON :=
  if decide (method req = "OPTIONS") then
    (mkResponse 204
       [("Access-Control-Allow-Origin", "*");
        ("Access-Control-Allow-Methods", "GET, POST, OPTIONS");
        ("Access-Control-Allow-Headers", "Content-Type")]
       Empty, [])
  else if decide (method req = "GET" /\ pathname req = "/api/scenes") then
    let list :=
      (fun s => JObject [("id", JString (id s)); ("name", JString (name s))]) <$> scenes in
    (sendJSON 200 (JArray list), [])
  else if decide (method req = "GET" /\ pathname req = "/api/presets") then
    match find_scene (query_scene req) with
    | None => (sendJSON 404 (JObject [("error", JString "Scene not found")]), [])
    | Some scene => (sendJSON 200 (presets_json (presets scene)), [])
    end
  else if decide (method req = "POST" /\ pathname req = "/api/telemetry") then
    match JSON_parse node (read_body (chunks req)) with
    | Some data => (sendJSON 200 (JObject [("status", JString "ok")]), [data])
    | None => (sendJSON 400 (JObject [("error", JString "Invalid JSON")]), [])
    end
  else if decide (method req = "GET") then
    match serveStatic node (if decide (pathname req = "/") then "/index.html"
                            else pathname req) with
    | Some served => (served, [])
    | None => (sendJSON 404 (JObject [("error", JString "Not found")]), [])
    end
  else (sendJSON 404 (JObject [("error", JString "Not found")]), []).

(** A small installation used in examples: two files under
    [/srv/public], and a parser that accepts only the text of an empty
    object. *)
Definition sample_node : Node :=
  mkNode "/srv"
    (fun p => p)
    (fun a b => if String.prefix "/" b then String.append a b
                else String.append a (String.append "/" b))
    (fun p => if decide (p = "/srv/public/app.js") then ".js" else "")
    (fun e => e)
    (fun p => bool_decide (p = "/srv/public/index.html" \/ p = "/srv/public/app.js"))
    (fun p => bool_decide (p = "/srv/public/index.html" \/ p = "/srv/public/app.js"))
    (fun p => if decide (p = "/srv/public/index.html") then Some "<html>"
              else if decide (p = "/srv/public/app.js") then Some "run()"
              else None)
    (fun text => if decide (text = "{}") then Some (JObject []) else None).

End Server.

(** * Properties *)

(** ** [clamp] *)

(** Case analysis on the comparisons inside [Rmin] and [Rmax], innermost
    first, so that each case leaves plain inequalities behind. *)
Ltac no_Rle_dec t :=
  lazymatch t with
  | context [Rle_dec _ _] => fail
  | _ => idtac
  end.

Ltac case_Rle :=
  repeat match goal with
         | |- context [Rle_dec ?a ?b] =>
             no_Rle_dec a; no_Rle_dec b; destruct (Rle_dec a b)
         end.

Ltac case_clamp := unfold clamp, Rmax, Rmin; case_Rle.

Lemma clamp_bounds (value min max : R) :
  min <= max -> min <= clamp value min max <= max.
Proof. intros; case_clamp; lra. Qed.

Lemma clamp_id (value min max : R) :
  min <= value <= max -> clamp value min max = value.
Proof. intros; case_clamp; lra. Qed.

Lemma clamp_above (value min max : R) :
  min <= max -> max <= value -> clamp value min max = max.
Proof. intros; case_clamp; lra. Qed.

Lemma clamp_below (value min max : R) :
  min <= max -> value <= min -> clamp value min max = min.
Proof. intros; case_clamp; lra. Qed.

Lemma clamp_sign_pos (value : R) : 0 <= value -> 0 <= clamp value (-1) 1.
Proof. intros; case_clamp; lra. Qed.

Lemma clamp_sign_neg (value : R) : value <= 0 -> clamp value (-1) 1 <= 0.
Proof. intros; case_clamp; lra. Qed.

Lemma degToRad_pos (degrees : R) : 0 < degrees -> 0 < MathUtils.degToRad degrees.
Proof.
  intros Hd. unfold MathUtils.degToRad, MathUtils.DEG2RAD.
  pose proof PI_RGT_0 as Hpi.
  apply Rmult_lt_0_compat; [exact Hd | lra].
Qed.

Lemma maxPitchAngle_pos : 0 < maxPitchAngle.
Proof. apply degToRad_pos; lra. Qed.

Lemma maxRollAngle_pos : 0 < maxRollAngle.
Proof. apply degToRad_pos; lra. Qed.

(** ** Projections of [update] *)

Lemma update_velocity (p : Airplane) (delta : R) :
  velocity (update p delta) = MathUtils.lerp 20 150 (throttle p).
Proof. reflexivity. Qed.

Lemma update_throttle (p : Airplane) (delta : R) :
  throttle (update p delta) = throttle p.
Proof. reflexivity. Qed.

Lemma update_pitch (p : Airplane) (delta : R) :
  pitch (update p delta)
  = clamp (pitch p + clamp (pitchInput p) (-1) 1 * MathUtils.degToRad 30 * delta)
          (- maxPitchAngle) maxPitchAngle.
Proof. reflexivity. Qed.

Lemma update_roll (p : Airplane) (delta : R) :
  roll (update p delta)
  = clamp (roll p + clamp (rollInput p) (-1) 1 * MathUtils.degToRad 60 * delta)
          (- maxRollAngle) maxRollAngle.
Proof. reflexivity. Qed.

Lemma update_yaw (p : Airplane) (delta : R) : yaw (update p delta) = yaw p.
Proof. reflexivity. Qed.

Lemma update_altitude_floor (p : Airplane) (delta : R) :
  2 <= altitude (update p delta).
Proof.
  unfold altitude, update; cbn [group position].
  destruct (Rlt_dec _ 2) as [Hlt | Hge]; cbn [Vector3.y]; lra.
Qed.

(** ** Speed *)

(** C2 (as the code has it): for every throttle in [0,1] and every
    delta, the speed after [update] is three.js's
    [lerp(20, 150, throttle)], computed as
    (1 - throttle) * 20 + throttle * 150; two airplanes with the same
    throttle get the same speed, whatever their orientation, altitude,
    inputs, previous speed or time step. *)
Theorem update_speed_is_lerp_of_throttle (p : Airplane) (delta : R) :
  0 <= throttle p <= 1 ->
  velocity (update p delta) = MathUtils.lerp 20 150 (throttle p)
  /\ velocity (update p delta) = (1 - throttle p) * 20 + throttle p * 150
  /\ (forall (q : Airplane) (delta' : R),
        throttle q = throttle p ->
        velocity (update q delta') = velocity (update p delta)).
Proof.
  intros _. rewrite update_velocity. repeat split.
  intros q delta' Hq. rewrite update_velocity, Hq. reflexivity.
Qed.

Lemma update_speed_is_lerp_of_throttle_witness :
  velocity (update new_Airplane 1) = MathUtils.lerp 20 150 (throttle new_Airplane)
  /\ velocity (update new_Airplane 1)
     = (1 - throttle new_Airplane) * 20 + throttle new_Airplane * 150
  /\ (forall (q : Airplane) (delta' : R),
        throttle q = throttle new_Airplane ->
        velocity (update q delta') = velocity (update new_Airplane 1)).
Proof.
  apply (update_speed_is_lerp_of_throttle new_Airplane 1).
  change (throttle new_Airplane) with 0.3. lra.
Defined.

Module Binary64Facts.

Import PrimFloat.

(** C2 (as stated) fails in double precision: ten presses of the
    throttle-up key from the initial 0.3 leave the throttle at
    0.8000000000000002; the next [update] sets the speed to
    124.00000000000003, while 20 + throttle * (150 - 20) is
    124.00000000000001. *)
Lemma speed_differs_from_expanded_formula :
  Nat.iter 10 Binary64.ArrowUp Binary64.initial_throttle = 0.8000000000000002%float
  /\ Binary64.update_velocity (Nat.iter 10 Binary64.ArrowUp Binary64.initial_throttle)
     = 124.00000000000003%float
  /\ (20 + Nat.iter 10 Binary64.ArrowUp Binary64.initial_throttle * (150 - 20))%float
     = 124.00000000000001%float
  /\ eqb (Binary64.update_velocity
            (Nat.iter 10 Binary64.ArrowUp Binary64.initial_throttle))
         (20 + Nat.iter 10 Binary64.ArrowUp Binary64.initial_throttle * (150 - 20))%float
     = false.
Proof. repeat split; vm_compute; reflexivity. Qed.

End Binary64Facts.

(** ** Orientation limits *)

Lemma hard_stop_upper (angle input rate delta limit : R) :
  0 < limit -> 0 < rate -> 0 <= delta -> 0 <= input -> angle = limit ->
  clamp (angle + clamp input (-1) 1 * rate * delta) (- limit) limit = limit.
Proof.
  intros Hl Hr Hd Hi ->.
  apply clamp_above; [lra |].
  pose proof (clamp_sign_pos input Hi) as Hc.
  assert (0 <= clamp input (-1) 1 * rate * delta).
  { apply Rmult_le_pos; [apply Rmult_le_pos |]; lra. }
  lra.
Qed.

Lemma hard_stop_lower (angle input rate delta limit : R) :
  0 < limit -> 0 < rate -> 0 <= delta -> input <= 0 -> angle = - limit ->
  clamp (angle + clamp input (-1) 1 * rate * delta) (- limit) limit = - limit.
Proof.
  intros Hl Hr Hd Hi ->.
  apply clamp_below; [lra |].
  pose proof (clamp_sign_neg input Hi) as Hc.
  assert (0 <= - clamp input (-1) 1 * rate * delta).
  { apply Rmult_le_pos; [apply Rmult_le_pos |]; lra. }
  lra.
Qed.

(** C3: for every delta >= 0 and every airplane state, after [update]
    the pitch angle is within +-30 degrees and the roll angle within
    +-75 degrees; an angle that sits at a limit with the input held
    against that limit stays exactly at the limit. *)
Theorem update_angles_clamped (p : Airplane) (delta : R) :
  0 <= delta ->
  (- MathUtils.degToRad 30 <= pitch (update p delta) <= MathUtils.degToRad 30)
  /\ (- MathUtils.degToRad 75 <= roll (update p delta) <= MathUtils.degToRad 75)
  /\ (pitch p = MathUtils.degToRad 30 -> 0 <= pitchInput p ->
      pitch (update p delta) = pitch p)
  /\ (pitch p = - MathUtils.degToRad 30 -> pitchInput p <= 0 ->
      pitch (update p delta) = pitch p)
  /\ (roll p = MathUtils.degToRad 75 -> 0 <= rollInput p ->
      roll (update p delta) = roll p)
  /\ (roll p = - MathUtils.degToRad 75 -> rollInput p <= 0 ->
      roll (update p delta) = roll p).
Proof.
  intros Hd.
  pose proof maxPitchAngle_pos as HP. pose proof maxRollAngle_pos as HR.
  pose proof (degToRad_pos 30 ltac:(lra)) as Hr30.
  pose proof (degToRad_pos 60 ltac:(lra)) as Hr60.
  rewrite update_pitch, update_roll.
  fold maxPitchAngle maxRollAngle.
  split; [apply clamp_bounds; lra |].
  split; [apply clamp_bounds; lra |].
  split; [intros Hx Hi; rewrite Hx at 2; now apply hard_stop_upper |].
  split; [intros Hx Hi; rewrite Hx at 2; now apply hard_stop_lower |].
  split; [intros Hx Hi; rewrite Hx at 2; now apply hard_stop_upper |].
  intros Hx Hi; rewrite Hx at 2; now apply hard_stop_lower.
Qed.

Lemma update_angles_clamped_witness :
  (- MathUtils.degToRad 30 <= pitch (update at_limits 1) <= MathUtils.degToRad 30)
  /\ (- MathUtils.degToRad 75 <= roll (update at_limits 1) <= MathUtils.degToRad 75)
  /\ pitch (update at_limits 1) = pitch at_limits
  /\ roll (update at_limits 1) = roll at_limits.
Proof.
  destruct (update_angles_clamped at_limits 1) as (Hp & Hr & Hup & _ & _ & Hlo).
  - lra.
  - split; [exact Hp |]. split; [exact Hr |]. split.
    + apply Hup; simpl; [reflexivity | lra].
    + apply Hlo; simpl; [reflexivity | lra].
Defined.

(** ** Ground floor *)

Lemma keydown_group (key : string) (p : Airplane) : group (keydown key p) = group p.
Proof. unfold keydown. repeat case_match; reflexivity. Qed.

Lemma keyup_group (key : string) (p : Airplane) : group (keyup key p) = group p.
Proof. unfold keyup. repeat case_match; reflexivity. Qed.

Lemma new_Airplane_altitude : altitude new_Airplane = 5.
Proof. reflexivity. Qed.

Lemma onSceneChange_player (selectedId : string) (s : Session) :
  player (onSceneChange selectedId s) = new_Airplane
  \/ onSceneChange selectedId s = s.
Proof.
  unfold onSceneChange. destruct (find_scene selectedId); [left | right]; reflexivity.
Qed.

Lemma step_altitude_floor (s : Session) (e : Event) :
  2 <= altitude (player s) -> 2 <= altitude (player (step s e)).
Proof.
  intros Hs. destruct e as [key | key | sel | delta | k | k]; cbn [step].
  - unfold altitude, with_player; cbn [player]. now rewrite keydown_group.
  - unfold altitude, with_player; cbn [player]. now rewrite keyup_group.
  - destruct (onSceneChange_player sel s) as [-> | ->]; [| exact Hs].
    rewrite new_Airplane_altitude. lra.
  - apply update_altitude_floor.
  - unfold textureLoaded. destruct (pendingLoads s !! k); exact Hs.
  - exact Hs.
Qed.

Lemma run_altitude_floor (es : list Event) (s : Session) :
  2 <= altitude (player s) -> 2 <= altitude (player (run s es)).
Proof.
  revert s. induction es as [| e es IH]; intros s Hs; [exact Hs |].
  apply IH, step_altitude_floor, Hs.
Qed.

(** C4: from any state with altitude >= 2, after any finite sequence of
    frames with delta >= 0, interleaved with any input events, the
    altitude after every call in the sequence is >= 2; this holds for
    each single call of [update] whatever the inputs and throttle. *)
Theorem altitude_never_below_floor (s : Session) (es : list Event) :
  2 <= altitude (player s) ->
  Forall admissible es ->
  (forall n : nat, 2 <= altitude (player (run s (take n es))))
  /\ (forall (p : Airplane) (delta : R),
        0 <= delta -> 2 <= altitude (update p delta)).
Proof.
  intros Hs _. split.
  - intros n. now apply run_altitude_floor.
  - intros p delta _. apply update_altitude_floor.
Qed.

Lemma altitude_never_below_floor_witness :
  (forall n : nat, 2 <= altitude (player (run init (take n dive)))) 
  /\ (forall (p : Airplane) (delta : R),
        0 <= delta -> 2 <= altitude (update p delta)).
Proof.
  apply (altitude_never_below_floor init dive).
  - change (2 <= 5). lra.
  - unfold dive. repeat constructor; unfold admissible; lra.
Defined.

(** ** A zero time step *)

Lemma multiplyScalar_0 (v : Vector3.t) :
  Vector3.multiplyScalar v 0 = Vector3.mk 0 0 0.
Proof. unfold Vector3.multiplyScalar. now rewrite !Rmult_0_r. Qed.

Lemma add_origin (a : Vector3.t) : Vector3.add a (Vector3.mk 0 0 0) = a.
Proof.
  destruct a as [ax ay az]. unfold Vector3.add; cbn.
  now rewrite !Rplus_0_r.
Qed.

Lemma update_zero_eq (p : Airplane) :
  in_bounds p ->
  update p 0
  = mkAirplane (group p) (throttle p) (pitchInput p) (rollInput p)
               (MathUtils.lerp 20 150 (throttle p)).
Proof.
  destruct p as [[[rx ry rz] [px py pz]] t pin rin v].
  unfold in_bounds, pitch, roll, altitude; cbn.
  intros (Hpi & Hri & Hp & Hr & Ha).
  unfold update; cbn [group rotation position throttle pitchInput rollInput
                      Euler.x Euler.y Euler.z].
  rewrite (clamp_id pin), (clamp_id rin) by lra.
  rewrite !Rmult_0_r, !Rplus_0_r.
  fold maxPitchAngle maxRollAngle.
  rewrite (clamp_id rx), (clamp_id rz) by lra.
  rewrite multiplyScalar_0, add_origin; cbn [Vector3.x Vector3.y Vector3.z].
  destruct (Rlt_dec py 2) as [Hlt | _]; [lra |].
  reflexivity.
Qed.

(** C5 (as the code has it): for every airplane state within the bounds
    of the data model, [update(0)] leaves orientation, position,
    throttle, pitchInput and rollInput as they were and sets the speed
    field to [lerp(20, 150, throttle)]; the call changes nothing at all
    exactly when the speed field already held that value. *)
Theorem update_zero_keeps_pose (p : Airplane) :
  in_bounds p ->
  group (update p 0) = group p
  /\ throttle (update p 0) = throttle p
  /\ pitchInput (update p 0) = pitchInput p
  /\ rollInput (update p 0) = rollInput p
  /\ velocity (update p 0) = MathUtils.lerp 20 150 (throttle p)
  /\ (update p 0 = p <-> velocity p = MathUtils.lerp 20 150 (throttle p)).
Proof.
  intros Hb. rewrite (update_zero_eq p Hb); cbn.
  repeat split; try reflexivity.
  - intros H. now apply (f_equal velocity) in H.
  - intros <-. now destruct p.
Qed.

Lemma new_Airplane_in_bounds : in_bounds new_Airplane.
Proof.
  pose proof maxPitchAngle_pos. pose proof maxRollAngle_pos.
  unfold in_bounds, pitch, roll, altitude; cbn. lra.
Qed.

Lemma update_zero_keeps_pose_witness :
  group (update new_Airplane 0) = group new_Airplane
  /\ throttle (update new_Airplane 0) = throttle new_Airplane
  /\ pitchInput (update new_Airplane 0) = pitchInput new_Airplane
  /\ rollInput (update new_Airplane 0) = rollInput new_Airplane
  /\ velocity (update new_Airplane 0) = MathUtils.lerp 20 150 (throttle new_Airplane)
  /\ (update new_Airplane 0 = new_Airplane
      <-> velocity new_Airplane = MathUtils.lerp 20 150 (throttle new_Airplane)).
Proof.
  apply (update_zero_keeps_pose new_Airplane).
  pose proof maxPitchAngle_pos. pose proof maxRollAngle_pos.
  unfold in_bounds, pitch, roll, altitude; cbn. lra.
Defined.

(** C5 (as stated) fails at start-up: the first frame calls [update(0)]
    on the freshly built airplane, whose speed field goes from 0 to 59. *)
Lemma update_zero_changes_speed :
  reachable init
  /\ velocity (player init) = 0
  /\ velocity (update (player init) 0) = 59
  /\ update (player init) 0 <> player init.
Proof.
  split; [constructor |]. split; [reflexivity |].
  assert (Hv : velocity (update (player init) 0) = 59).
  { rewrite update_velocity. change (throttle (player init)) with 0.3.
    unfold MathUtils.lerp. lra. }
  split; [exact Hv |].
  intros Heq. rewrite Heq in Hv. change (velocity (player init)) with 0 in Hv. lra.
Qed.

(** Outside the bounds of the data model [update(0)] does write an
    input field: a pitch input of 2 is clamped to 1. *)
Lemma update_zero_clamps_overdriven_input :
  pitchInput overdriven = 2 /\ pitchInput (update overdriven 0) = 1.
Proof.
  split; [reflexivity |].
  change (pitchInput (update overdriven 0)) with (clamp 2 (-1) 1).
  apply clamp_above; lra.
Qed.

(** ** Scene selection *)

Lemma find_scene_catalogue (def : SceneDefinition) :
  In def SCENES -> find_scene (id def) = Some def.
Proof.
  intros [<- | [<- | [<- | []]]]; reflexivity.
Qed.

Lemma find_scene_unknown (selectedId : string) :
  (forall def, In def SCENES -> id def <> selectedId) ->
  find_scene selectedId = None.
Proof.
  intros Hnone. unfold find_scene.
  destruct (List.find _ SCENES) as [def |] eqn:Hfind; [| reflexivity].
  apply List.find_some in Hfind as [Hin Hid].
  apply bool_decide_eq_true in Hid.
  now destruct (Hnone def Hin).
Qed.

(** C1 (as the code has it): a scene switch to a catalogue entry runs
    [buildScene], which composes a new World and also assigns a freshly
    constructed airplane to [player]: position (0, 5, 0), pitch, yaw and
    roll 0, throttle 0.3, inputs 0 and speed 0, whatever the state was
    before.  Only the material store and the loads in flight carry over. *)
Theorem scene_switch_rebuilds_airplane (s : Session) (def : SceneDefinition) :
  In def SCENES ->
  step s (SceneChange (id def)) = buildScene def (materials s) (pendingLoads s)
  /\ player (step s (SceneChange (id def))) = new_Airplane
  /\ position (group (player (step s (SceneChange (id def))))) = Vector3.mk 0 5 0
  /\ rotation (group (player (step s (SceneChange (id def))))) = Euler.mk 0 0 0
  /\ throttle (player (step s (SceneChange (id def)))) = 0.3
  /\ background (scene (step s (SceneChange (id def)))) = skyColor def
  /\ fog (scene (step s (SceneChange (id def)))) = mkFog (fogColor def) 200 15000.
Proof.
  intros Hin. cbn [step]. unfold onSceneChange.
  rewrite (find_scene_catalogue def Hin).
  repeat split.
Qed.

Lemma scene_switch_rebuilds_airplane_witness :
  step throttled_up (SceneChange (id alps))
  = buildScene alps (materials throttled_up) (pendingLoads throttled_up)
  /\ player (step throttled_up (SceneChange (id alps))) = new_Airplane
  /\ position (group (player (step throttled_up (SceneChange (id alps)))))
     = Vector3.mk 0 5 0
  /\ rotation (group (player (step throttled_up (SceneChange (id alps)))))
     = Euler.mk 0 0 0
  /\ throttle (player (step throttled_up (SceneChange (id alps)))) = 0.3
  /\ background (scene (step throttled_up (SceneChange (id alps)))) = skyColor alps
  /\ fog (scene (step throttled_up (SceneChange (id alps))))
     = mkFog (fogColor alps) 200 15000.
Proof.
  apply (scene_switch_rebuilds_airplane throttled_up alps).
  unfold SCENES. simpl. right. left. reflexivity.
Defined.

(** C1 (as stated) fails: after one press of the throttle-up key the
    throttle is 0.35; selecting the catalogue scene ['alps'] then puts it
    back to 0.3. *)
Lemma scene_switch_resets_throttle :
  reachable throttled_up
  /\ In alps SCENES
  /\ throttle (player throttled_up) = 0.35
  /\ throttle (player (step throttled_up (SceneChange (id alps)))) = 0.3
  /\ throttle (player (step throttled_up (SceneChange (id alps))))
     <> throttle (player throttled_up).
Proof.
  assert (Hbefore : throttle (player throttled_up) = 0.35).
  { change (throttle (player throttled_up)) with (clamp (0.3 + 0.05) 0 1).
    rewrite clamp_id; lra. }
  assert (Hafter : throttle (player (step throttled_up (SceneChange (id alps)))) = 0.3)
    by reflexivity.
  split.
  { unfold throttled_up, run; cbn [foldl].
    apply reachable_step; [apply reachable_step; [constructor |] | exact I].
    unfold admissible; lra. }
  split; [right; left; reflexivity |].
  split; [exact Hbefore |]. split; [exact Hafter |].
  rewrite Hbefore, Hafter. lra.
Qed.

(** C8: a scene-selection event whose id matches no catalogue entry
    leaves the whole session as it was: same World, same material store
    (nothing composed), and the handler returns normally. *)
Theorem unknown_scene_id_is_noop (s : Session) (selectedId : string) :
  (forall def, In def SCENES -> id def <> selectedId) ->
  step s (SceneChange selectedId) = s.
Proof.
  intros Hnone. cbn [step]. unfold onSceneChange.
  now rewrite (find_scene_unknown selectedId Hnone).
Qed.

Lemma unknown_scene_id_is_noop_witness :
  step throttled_up (SceneChange "mars") = throttled_up.
Proof.
  apply (unknown_scene_id_is_noop throttled_up "mars").
  intros def [<- | [<- | [<- | []]]]; discriminate.
Defined.

(** ** Input mapping *)

(** C6: whatever the input fields hold, releasing a pitch key sets
    [pitchInput] to 0 and releasing a roll key sets [rollInput] to 0;
    after press left-roll, press right-roll, release left-roll the
    [rollInput] is 0 although right-roll (value 1) is still held. *)
Theorem key_release_zeroes_axis (s : Session) :
  Forall (fun key => pitchInput (player (step s (KeyUp key))) = 0)
         ["w"; "W"; "s"; "S"]
  /\ Forall (fun key => rollInput (player (step s (KeyUp key))) = 0)
            ["a"; "A"; "d"; "D"]
  /\ rollInput (player (run s [KeyDown "a"; KeyDown "d"])) = 1
  /\ rollInput (player (run s [KeyDown "a"; KeyDown "d"; KeyUp "a"])) = 0.
Proof.
  repeat split; repeat constructor.
Qed.

Lemma keydown_throttle_bounds (key : string) (p : Airplane) :
  0 <= throttle p <= 1 -> 0 <= throttle (keydown key p) <= 1.
Proof.
  intros Ht. unfold keydown.
  repeat case_match; cbn [throttle]; try exact Ht; apply clamp_bounds; lra.
Qed.

Lemma keyup_throttle (key : string) (p : Airplane) :
  throttle (keyup key p) = throttle p.
Proof. unfold keyup. repeat case_match; reflexivity. Qed.

Lemma throttle_up_iter (n : nat) (p : Airplane) :
  0 <= throttle p <= 1 ->
  throttle (Nat.iter n (keydown "ArrowUp") p) = Rmin 1 (throttle p + INR n * 0.05).
Proof.
  intros Ht. induction n as [| n IH].
  - unfold Nat.iter; cbn [nat_rect]. change (INR 0) with 0.
    unfold Rmin; case_Rle; lra.
  - rewrite Nat.iter_succ.
    change (throttle (keydown "ArrowUp" ?q)) with (clamp (throttle q + 0.05) 0 1).
    rewrite IH, S_INR. pose proof (pos_INR n) as Hn.
    case_clamp; lra.
Qed.

(** C7: for every throttle in [0,1], a throttle-key press moves the
    throttle by 0.05 up or down and clamps the result to [0,1], so every
    key event keeps the throttle in [0,1]; from the initial throttle 0.3,
    twenty throttle-up presses give exactly 1, and the next [update]
    sets the speed to 150. *)
Theorem throttle_keys_step_and_clamp (p : Airplane) :
  0 <= throttle p <= 1 ->
  throttle (keydown "ArrowUp" p) = clamp (throttle p + 0.05) 0 1
  /\ throttle (keydown "ArrowDown" p) = clamp (throttle p - 0.05) 0 1
  /\ (throttle p + 0.05 <= 1 -> throttle (keydown "ArrowUp" p) = throttle p + 0.05)
  /\ (0 <= throttle p - 0.05 -> throttle (keydown "ArrowDown" p) = throttle p - 0.05)
  /\ (forall key : string,
        0 <= throttle (keydown key p) <= 1 /\ 0 <= throttle (keyup key p) <= 1)
  /\ throttle new_Airplane = 0.3
  /\ throttle (Nat.iter 20 (keydown "ArrowUp") new_Airplane) = 1
  /\ (forall delta : R,
        velocity (update (Nat.iter 20 (keydown "ArrowUp") new_Airplane) delta) = 150).
Proof.
  intros Ht.
  assert (Hfull : throttle (Nat.iter 20 (keydown "ArrowUp") new_Airplane) = 1).
  { rewrite throttle_up_iter by (cbn; lra).
    change (throttle new_Airplane) with 0.3.
    rewrite INR_IZR_INZ. change (Z.of_nat 20) with 20%Z.
    unfold Rmin; case_Rle; lra. }
  split; [reflexivity |]. split; [reflexivity |].
  split.
  { intros Hroom. change (throttle (keydown "ArrowUp" p))
      with (clamp (throttle p + 0.05) 0 1). apply clamp_id; lra. }
  split.
  { intros Hroom. change (throttle (keydown "ArrowDown" p))
      with (clamp (throttle p - 0.05) 0 1). apply clamp_id; lra. }
  split.
  { intros key. split; [now apply keydown_throttle_bounds |].
    now rewrite keyup_throttle. }
  split; [reflexivity |]. split; [exact Hfull |].
  intros delta. rewrite update_velocity, Hfull. unfold MathUtils.lerp. lra.
Qed.

Lemma throttle_keys_step_and_clamp_witness :
  throttle (keydown "ArrowUp" new_Airplane) = clamp (throttle new_Airplane + 0.05) 0 1
  /\ throttle (keydown "ArrowDown" new_Airplane)
     = clamp (throttle new_Airplane - 0.05) 0 1
  /\ (throttle new_Airplane + 0.05 <= 1 ->
      throttle (keydown "ArrowUp" new_Airplane) = throttle new_Airplane + 0.05)
  /\ (0 <= throttle new_Airplane - 0.05 ->
      throttle (keydown "ArrowDown" new_Airplane) = throttle new_Airplane - 0.05)
  /\ (forall key : string,
        0 <= throttle (keydown key new_Airplane) <= 1
        /\ 0 <= throttle (keyup key new_Airplane) <= 1)
  /\ throttle new_Airplane = 0.3
  /\ throttle (Nat.iter 20 (keydown "ArrowUp") new_Airplane) = 1
  /\ (forall delta : R,
        velocity (update (Nat.iter 20 (keydown "ArrowUp") new_Airplane) delta) = 150).
Proof.
  apply (throttle_keys_step_and_clamp new_Airplane).
  change (throttle new_Airplane) with 0.3. lra.
Defined.

(** ** Reachable states *)

Lemma keydown_in_bounds (key : string) (p : Airplane) :
  in_bounds p -> in_bounds (keydown key p).
Proof.
  unfold in_bounds, pitch, roll, altitude. intros (Hpi & Hri & Hrest).
  unfold keydown.
  repeat case_match; cbn [group pitchInput rollInput];
    (split; [| split]); first [exact Hpi | exact Hri | exact Hrest | lra].
Qed.

Lemma keyup_in_bounds (key : string) (p : Airplane) :
  in_bounds p -> in_bounds (keyup key p).
Proof.
  unfold in_bounds, pitch, roll, altitude. intros (Hpi & Hri & Hrest).
  unfold keyup.
  repeat case_match; cbn [group pitchInput rollInput];
    (split; [| split]); first [exact Hpi | exact Hri | exact Hrest | lra].
Qed.

Lemma update_in_bounds (p : Airplane) (delta : R) : in_bounds (update p delta).
Proof.
  pose proof maxPitchAngle_pos. pose proof maxRollAngle_pos.
  unfold in_bounds. rewrite update_pitch, update_roll.
  split; [apply clamp_bounds; lra |].
  split; [apply clamp_bounds; lra |].
  split; [apply clamp_bounds; lra |].
  split; [apply clamp_bounds; lra |].
  apply update_altitude_floor.
Qed.

Lemma step_in_bounds (s : Session) (e : Event) :
  in_bounds (player s) -> in_bounds (player (step s e)).
Proof.
  intros Hs. destruct e as [key | key | sel | delta | k | k]; cbn [step].
  - now apply keydown_in_bounds.
  - now apply keyup_in_bounds.
  - destruct (onSceneChange_player sel s) as [-> | ->];
      [apply new_Airplane_in_bounds | exact Hs].
  - apply update_in_bounds.
  - unfold textureLoaded. destruct (pendingLoads s !! k); exact Hs.
  - exact Hs.
Qed.

Lemma reachable_in_bounds (s : Session) : reachable s -> in_bounds (player s).
Proof.
  induction 1 as [| s e _ IH _]; [apply new_Airplane_in_bounds |].
  now apply step_in_bounds.
Qed.

Lemma step_yaw (s : Session) (e : Event) :
  yaw (player s) = 0 -> yaw (player (step s e)) = 0.
Proof.
  intros Hs. destruct e as [key | key | sel | delta | k | k]; cbn [step].
  - unfold yaw, with_player; cbn [player]. now rewrite keydown_group.
  - unfold yaw, with_player; cbn [player]. now rewrite keyup_group.
  - destruct (onSceneChange_player sel s) as [-> | ->]; [reflexivity | exact Hs].
  - exact Hs.
  - unfold textureLoaded. destruct (pendingLoads s !! k); exact Hs.
  - exact Hs.
Qed.

Lemma reachable_yaw (s : Session) : reachable s -> yaw (player s) = 0.
Proof.
  induction 1 as [| s e _ IH _]; [reflexivity | now apply step_yaw].
Qed.

(** ** Heading *)

Lemma setFromEuler_level :
  Quaternion.setFromEuler (Euler.mk 0 0 0) = Quaternion.mk 0 0 0 1.
Proof.
  unfold Quaternion.setFromEuler; cbn [Euler.x Euler.y Euler.z].
  replace (0 / 2) with 0 by lra. rewrite sin_0, cos_0.
  f_equal; ring.
Qed.

Lemma applyQuaternion_identity (v : Vector3.t) :
  Vector3.applyQuaternion v (Quaternion.mk 0 0 0 1) = v.
Proof.
  destruct v as [vx vy vz]. unfold Vector3.applyQuaternion; cbn.
  f_equal; ring.
Qed.

Lemma normalize_minus_z :
  Vector3.normalize (Vector3.mk 0 0 (-1)) = Vector3.mk 0 0 (-1).
Proof.
  assert (Hlen : Vector3.length (Vector3.mk 0 0 (-1)) = 1).
  { unfold Vector3.length; cbn.
    replace (0 * 0 + 0 * 0 + -1 * -1) with 1 by ring. apply sqrt_1. }
  unfold Vector3.normalize. rewrite Hlen.
  destruct (Req_dec_T 1 0) as [Habs | _]; [lra |].
  unfold Vector3.divideScalar, Vector3.multiplyScalar; cbn.
  f_equal; lra.
Qed.

Lemma forward_level (g : Group) :
  rotation g = Euler.mk 0 0 0 -> forward g = Vector3.mk 0 0 (-1).
Proof.
  intros Hrot. unfold forward, quaternion. rewrite Hrot.
  rewrite setFromEuler_level, applyQuaternion_identity.
  apply normalize_minus_z.
Qed.

(** C10: [update] never writes the yaw component of the orientation,
    whatever the state and the time step; in every reachable state the
    yaw is still the initial 0, and whenever pitch and roll are both 0
    the forward direction is exactly the world -z axis. *)
Theorem yaw_never_written (p : Airplane) (s : Session) :
  reachable s ->
  (forall delta : R, yaw (update p delta) = yaw p)
  /\ yaw (player s) = 0
  /\ (forall delta : R, yaw (player (step s (Frame delta))) = 0)
  /\ (pitch (player s) = 0 -> roll (player s) = 0 ->
      forward (group (player s)) = Vector3.mk 0 0 (-1)).
Proof.
  intros Hs. pose proof (reachable_yaw s Hs) as Hyaw.
  split; [intros delta; apply update_yaw |].
  split; [exact Hyaw |].
  split; [intros delta; exact Hyaw |].
  intros Hp Hr. apply forward_level.
  unfold pitch, yaw, roll in *.
  destruct (rotation (group (player s))) as [rx ry rz]; cbn in *.
  now subst.
Qed.

Lemma yaw_never_written_witness :
  (forall delta : R, yaw (update at_limits delta) = yaw at_limits)
  /\ yaw (player (step init (KeyDown "d"))) = 0
  /\ (forall delta : R, yaw (player (step (step init (KeyDown "d")) (Frame delta))) = 0)
  /\ forward (group (player (step init (KeyDown "d")))) = Vector3.mk 0 0 (-1).
Proof.
  destruct (yaw_never_written at_limits (step init (KeyDown "d")))
    as (Hu & Hy & Hf & Hfwd).
  - apply reachable_step; [apply reachable_init | exact I].
  - split; [exact Hu |]. split; [exact Hy |]. split; [exact Hf |].
    apply Hfwd; reflexivity.
Defined.

(** ** Late texture callbacks *)

Lemma buildScene_materials (def : SceneDefinition)
    (mats : list MeshStandardMaterial) (pending : list PendingLoad) :
  materials (buildScene def mats pending)
  = mats ++ [mkMaterial (groundColor def) 0.0 1.0 None false]
  /\ scene_materials (scene (buildScene def mats pending)) = [length mats].
Proof. split; reflexivity. Qed.

(** The load that [buildScene] starts targets the ground material of the
    World being composed by that very call. *)
Lemma buildScene_load_targets_own_ground (def : SceneDefinition)
    (mats : list MeshStandardMaterial) (pending : list PendingLoad) (u : string) :
  truthy (groundTexture def) = Some u ->
  pendingLoads (buildScene def mats pending)
  = pending ++ [mkPendingLoad u (length mats)].
Proof. intros Hu. unfold buildScene; cbn [pendingLoads]. now rewrite Hu. Qed.

Lemma buildScene_older (def : SceneDefinition)
    (mats : list MeshStandardMaterial) (pending : list PendingLoad)
    (l : PendingLoad) :
  (target l < length mats)%nat ->
  older_than_world l (buildScene def mats pending).
Proof.
  intros Hl. destruct (buildScene_materials def mats pending) as [Hm Hg].
  unfold older_than_world. rewrite Hm, Hg, List.length_app. cbn [length].
  split; [lia |]. now apply Forall_singleton.
Qed.

Lemma onLoad_length (groundMat : MaterialRef) (tex : Texture)
    (mats : list MeshStandardMaterial) :
  length (onLoad groundMat tex mats) = length mats.
Proof. apply length_alter. Qed.

Lemma onLoad_other (groundMat r : MaterialRef) (tex : Texture)
    (mats : list MeshStandardMaterial) :
  r <> groundMat -> onLoad groundMat tex mats !! r = mats !! r.
Proof. intros Hne. apply list_lookup_alter_ne. congruence. Qed.

Lemma step_older (l : PendingLoad) (s : Session) (e : Event) :
  older_than_world l s -> older_than_world l (step s e).
Proof.
  intros [Hlen Hold].
  destruct e as [key | key | sel | delta | k | k]; cbn [step];
    try (split; assumption).
  - unfold onSceneChange. destruct (find_scene sel) as [def |]; [| now split].
    now apply buildScene_older.
  - unfold textureLoaded. destruct (pendingLoads s !! k) as [l' |]; [| now split].
    split; cbn [materials scene]; [now rewrite onLoad_length | exact Hold].
Qed.

Lemma run_older (l : PendingLoad) (es : list Event) (s : Session) :
  older_than_world l s -> older_than_world l (run s es).
Proof.
  revert s. induction es as [| e es IH]; intros s Hs; [exact Hs |].
  apply IH, step_older, Hs.
Qed.

Lemma step_store_ok (s : Session) (e : Event) : store_ok s -> store_ok (step s e).
Proof.
  unfold store_ok. intros Hs.
  destruct e as [key | key | sel | delta | k | k]; cbn [step]; try exact Hs.
  - unfold onSceneChange. destruct (find_scene sel) as [def |]; [| exact Hs].
    unfold buildScene; cbn [materials pendingLoads].
    rewrite List.length_app; cbn [length].
    assert (Hs' : Forall (fun l => (target l < length (materials s) + 1)%nat)
                         (pendingLoads s)).
    { eapply Forall_impl; [exact Hs |]. cbn. intros; lia. }
    destruct (truthy (groundTexture def)); [| exact Hs'].
    apply Forall_app; split; [exact Hs' |].
    apply Forall_singleton; cbn; lia.
  - unfold textureLoaded. destruct (pendingLoads s !! k) as [l' |]; [| exact Hs].
    cbn [materials pendingLoads]. rewrite onLoad_length.
    now apply Forall_delete.
  - unfold textureFailed; cbn [materials pendingLoads]. now apply Forall_delete.
Qed.

Lemma reachable_store_ok (s : Session) : reachable s -> store_ok s.
Proof.
  induction 1 as [| s e _ IH _]; [| now apply step_store_ok].
  unfold store_ok. apply Forall_singleton. cbn. lia.
Qed.

Lemma stale_load_keeps_world (l : PendingLoad) (k : nat) (s : Session) :
  older_than_world l s ->
  pendingLoads s !! k = Some l ->
  World (step s (TextureLoaded k)) = World s
  /\ ~ In (target l) (scene_materials (scene s))
  /\ (forall r : MaterialRef,
        r <> target l ->
        materials (step s (TextureLoaded k)) !! r = materials s !! r).
Proof.
  intros [_ Hold] Hk. cbn [step]. unfold textureLoaded. rewrite Hk.
  split; [| split].
  - unfold World; cbn [scene materials]. f_equal.
    apply Forall_fmap_ext_1.
    eapply Forall_impl; [exact Hold |].
    intros g Hg. cbn beta in Hg. apply onLoad_other. lia.
  - intros Hin. apply list_elem_of_In in Hin.
    rewrite Forall_forall in Hold. specialize (Hold _ Hin). cbn beta in Hold. lia.
  - intros r Hr. cbn [materials]. now apply onLoad_other.
Qed.

(** C9: take a texture load [l] that is in flight, then switch scene.
    However many events follow the switch, when the callback of [l]
    finally runs it leaves the World of that moment exactly as it was:
    its target is none of the materials of the current scene, and the
    only object it writes is its own target, the ground material its
    own [buildScene] call created. *)
Theorem stale_texture_callback_misses_new_world
    (s : Session) (l : PendingLoad) (def : SceneDefinition)
    (es : list Event) (k : nat) :
  reachable s ->
  In l (pendingLoads s) ->
  In def SCENES ->
  pendingLoads (run (step s (SceneChange (id def))) es) !! k = Some l ->
  World (step (run (step s (SceneChange (id def))) es) (TextureLoaded k))
  = World (run (step s (SceneChange (id def))) es)
  /\ ~ In (target l) (scene_materials (scene (run (step s (SceneChange (id def))) es)))
  /\ (forall r : MaterialRef,
        r <> target l ->
        materials (step (run (step s (SceneChange (id def))) es) (TextureLoaded k)) !! r
        = materials (run (step s (SceneChange (id def))) es) !! r).
Proof.
  intros Hs Hl Hdef Hk.
  apply stale_load_keeps_world; [| exact Hk].
  apply run_older. cbn [step]. unfold onSceneChange.
  rewrite (find_scene_catalogue def Hdef).
  apply buildScene_older.
  pose proof (reachable_store_ok s Hs) as Hok. unfold store_ok in Hok.
  rewrite Forall_forall in Hok. apply Hok. now apply list_elem_of_In.
Qed.

Lemma stale_texture_callback_misses_new_world_witness :
  World (step (run (step init (SceneChange (id alps))) after_switch) (TextureLoaded 0))
  = World (run (step init (SceneChange (id alps))) after_switch)
  /\ ~ In (target coast_load)
          (scene_materials (scene (run (step init (SceneChange (id alps))) after_switch)))
  /\ (forall r : MaterialRef,
        r <> target coast_load ->
        materials (step (run (step init (SceneChange (id alps))) after_switch)
                        (TextureLoaded 0)) !! r
        = materials (run (step init (SceneChange (id alps))) after_switch) !! r).
Proof.
  apply (stale_texture_callback_misses_new_world init coast_load alps after_switch 0).
  - apply reachable_init.
  - left. reflexivity.
  - right. left. reflexivity.
  - reflexivity.
Defined.

(** On that run the late callback does fire: it writes the coast texture
    into material 0, the ground of the discarded first World, while the
    current scene points to material 1. *)
Lemma stale_texture_callback_writes_old_ground :
  map <$> materials (run (step init (SceneChange (id alps))) after_switch) !! 0%nat
  = Some None
  /\ map <$> materials (step (run (step init (SceneChange (id alps))) after_switch)
                             (TextureLoaded 0)) !! 0%nat
     = Some (Some (mkTexture "assets/coast.png" RepeatWrapping RepeatWrapping (500, 500)))
  /\ scene_materials (scene (run (step init (SceneChange (id alps))) after_switch))
     = [1%nat].
Proof. repeat split. Qed.

(** * Further properties of the code *)

(** ** Rotations keep lengths *)

Lemma applyQuaternion_lengthSq (v : Vector3.t) (q : Quaternion.t) :
  lengthSq (Vector3.applyQuaternion v q)
  = (Quaternion.x q * Quaternion.x q + Quaternion.y q * Quaternion.y q
     + Quaternion.z q * Quaternion.z q + Quaternion.w q * Quaternion.w q)
    * (Quaternion.x q * Quaternion.x q + Quaternion.y q * Quaternion.y q
       + Quaternion.z q * Quaternion.z q + Quaternion.w q * Quaternion.w q)
    * lengthSq v.
Proof.
  destruct v as [vx vy vz], q as [qx qy qz qw].
  unfold lengthSq, Vector3.applyQuaternion; cbn. ring.
Qed.

Lemma sin_cos_unit (a : R) : sin a * sin a + cos a * cos a = 1.
Proof. pose proof (sin2_cos2 a) as H. unfold Rsqr in H. exact H. Qed.

Lemma setFromEuler_unit (e : Euler.t) :
  let q := Quaternion.setFromEuler e in
  Quaternion.x q * Quaternion.x q + Quaternion.y q * Quaternion.y q
  + Quaternion.z q * Quaternion.z q + Quaternion.w q * Quaternion.w q = 1.
Proof.
  destruct e as [ex ey ez]. unfold Quaternion.setFromEuler; cbn.
  pose proof (sin_cos_unit (ex / 2)) as H1.
  pose proof (sin_cos_unit (ey / 2)) as H2.
  pose proof (sin_cos_unit (ez / 2)) as H3.
  set (s1 := sin (ex / 2)) in *. set (c1 := cos (ex / 2)) in *.
  set (s2 := sin (ey / 2)) in *. set (c2 := cos (ey / 2)) in *.
  set (s3 := sin (ez / 2)) in *. set (c3 := cos (ez / 2)) in *.
  transitivity ((s1 * s1 + c1 * c1) * (s2 * s2 + c2 * c2) * (s3 * s3 + c3 * c3));
    [ring | rewrite H1, H2, H3; ring].
Qed.

Lemma rotated_lengthSq (v : Vector3.t) (g : Group) :
  lengthSq (Vector3.applyQuaternion v (quaternion g)) = lengthSq v.
Proof.
  rewrite applyQuaternion_lengthSq. unfold quaternion.
  pose proof (setFromEuler_unit (rotation g)) as Hq. cbn zeta in Hq.
  rewrite Hq. ring.
Qed.

Lemma length_of_lengthSq (v : Vector3.t) : Vector3.length v = sqrt (lengthSq v).
Proof. reflexivity. Qed.

Lemma normalize_unit (v : Vector3.t) : lengthSq v = 1 -> Vector3.normalize v = v.
Proof.
  intros Hv. unfold Vector3.normalize.
  rewrite length_of_lengthSq, Hv, sqrt_1.
  destruct (Req_dec_T 1 0) as [Habs | _]; [lra |].
  destruct v as [vx vy vz].
  unfold Vector3.divideScalar, Vector3.multiplyScalar; cbn. f_equal; lra.
Qed.

Lemma forward_rotated (g : Group) :
  forward g = Vector3.applyQuaternion (Vector3.mk 0 0 (-1)) (quaternion g).
Proof.
  unfold forward. apply normalize_unit.
  rewrite rotated_lengthSq. unfold lengthSq; cbn. ring.
Qed.

(** ** The flight path *)

Lemma forward_without_yaw (g : Group) :
  Euler.y (rotation g) = 0 ->
  forward g = Vector3.mk 0 (sin (Euler.x (rotation g))) (- cos (Euler.x (rotation g))).
Proof.
  intros Hyaw. rewrite forward_rotated. unfold quaternion.
  destruct g as [[rx ry rz] pos]; cbn in Hyaw |- *. subst ry.
  unfold Quaternion.setFromEuler, Vector3.applyQuaternion; cbn.
  replace (0 / 2) with 0 by lra. rewrite sin_0, cos_0.
  pose proof (sin_cos_unit (rz / 2)) as H3.
  replace (sin rx) with (sin (2 * (rx / 2))) by (f_equal; lra).
  replace (cos rx) with (cos (2 * (rx / 2))) by (f_equal; lra).
  rewrite sin_2a, cos_2a.
  set (s1 := sin (rx / 2)) in *. set (c1 := cos (rx / 2)) in *.
  set (s3 := sin (rz / 2)) in *. set (c3 := cos (rz / 2)) in *.
  f_equal.
  - ring.
  - transitivity (2 * s1 * c1 * (s3 * s3 + c3 * c3)); [ring | rewrite H3; ring].
  - transitivity (- (c1 * c1 - s1 * s1) * (s3 * s3 + c3 * c3));
      [ring | rewrite H3; ring].
Qed.

(** The position [update] leaves, before and after the floor test. *)
Lemma update_position (p : Airplane) (delta : R) :
  let g' := group (update p delta) in
  let moved :=
    Vector3.add (position (group p))
      (Vector3.multiplyScalar (forward g')
                              (MathUtils.lerp 20 150 (throttle p) * delta)) in
  position g'
  = if Rlt_dec (Vector3.y moved) 2
    then Vector3.mk (Vector3.x moved) 2 (Vector3.z moved)
    else moved.
Proof.
  cbn zeta. unfold update at 1; cbn [group position].
  unfold forward, quaternion; cbn [rotation update group].
  reflexivity.
Qed.

Lemma lerp_speed_bounds (t : R) :
  0 <= t <= 1 -> 20 <= MathUtils.lerp 20 150 t <= 150.
Proof. intros Ht. unfold MathUtils.lerp. lra. Qed.

Lemma pitch_limit_lt_half_PI : maxPitchAngle < PI / 2.
Proof.
  unfold maxPitchAngle, MathUtils.degToRad, MathUtils.DEG2RAD.
  pose proof PI_RGT_0. lra.
Qed.

Lemma update_forward (p : Airplane) (delta : R) :
  yaw p = 0 ->
  forward (group (update p delta))
  = Vector3.mk 0 (sin (pitch (update p delta))) (- cos (pitch (update p delta))).
Proof.
  intros Hyaw. apply forward_without_yaw.
  change (yaw (update p delta) = 0). now rewrite update_yaw.
Qed.

Lemma update_horizontal (p : Airplane) (delta : R) :
  yaw p = 0 ->
  Vector3.x (position (group (update p delta))) = Vector3.x (position (group p))
  /\ Vector3.z (position (group (update p delta)))
     = Vector3.z (position (group p))
       - cos (pitch (update p delta)) * (MathUtils.lerp 20 150 (throttle p) * delta).
Proof.
  intros Hyaw. pose proof (update_position p delta) as Hpos. cbn zeta in Hpos.
  rewrite Hpos, (update_forward p delta Hyaw). clear Hpos.
  unfold Vector3.add, Vector3.multiplyScalar; cbn [Vector3.x Vector3.y Vector3.z].
  destruct (Rlt_dec _ 2); cbn [Vector3.x Vector3.y Vector3.z]; split; ring.
Qed.

Lemma update_vertical (p : Airplane) (delta : R) :
  yaw p = 0 ->
  altitude (update p delta)
  = Rmax 2 (altitude p
            + sin (pitch (update p delta))
              * (MathUtils.lerp 20 150 (throttle p) * delta)).
Proof.
  intros Hyaw. pose proof (update_position p delta) as Hpos. cbn zeta in Hpos.
  unfold altitude at 1. rewrite Hpos, (update_forward p delta Hyaw). clear Hpos.
  unfold altitude, Rmax, Vector3.add, Vector3.multiplyScalar;
    cbn [Vector3.x Vector3.y Vector3.z].
  destruct (Rlt_dec _ 2); destruct (Rle_dec 2 _);
    cbn [Vector3.x Vector3.y Vector3.z]; lra.
Qed.

Lemma update_pitch_bounds (p : Airplane) (delta : R) :
  - maxPitchAngle <= pitch (update p delta) <= maxPitchAngle.
Proof.
  pose proof maxPitchAngle_pos. rewrite update_pitch. apply clamp_bounds. lra.
Qed.

Lemma update_cos_pitch_pos (p : Airplane) (delta : R) :
  0 < cos (pitch (update p delta)).
Proof.
  pose proof (update_pitch_bounds p delta). pose proof pitch_limit_lt_half_PI.
  apply cos_gt_0; lra.
Qed.

(** X3: with yaw 0, throttle in [0,1] and delta >= 0, a frame never
    moves the airplane backwards: its z coordinate does not increase. *)
Theorem update_never_flies_backwards (p : Airplane) (delta : R) :
  yaw p = 0 ->
  0 <= throttle p <= 1 ->
  0 <= delta ->
  Vector3.z (position (group (update p delta))) <= Vector3.z (position (group p)).
Proof.
  intros Hyaw Ht Hd. destruct (update_horizontal p delta Hyaw) as [_ Hz].
  rewrite Hz. pose proof (update_cos_pitch_pos p delta) as Hc.
  pose proof (lerp_speed_bounds (throttle p) Ht) as Hv.
  assert (0 <= cos (pitch (update p delta))
               * (MathUtils.lerp 20 150 (throttle p) * delta)).
  { apply Rmult_le_pos; [lra |]. apply Rmult_le_pos; lra. }
  lra.
Qed.

Lemma update_never_flies_backwards_witness :
  Vector3.z (position (group (update at_limits 2)))
  <= Vector3.z (position (group at_limits)).
Proof.
  apply (update_never_flies_backwards at_limits 2).
  - reflexivity.
  - change (throttle at_limits) with 0.3. lra.
  - lra.
Defined.

(** X4: with yaw 0, throttle in [0,1] and delta >= 0: when the pitch
    after the frame is >= 0 (nose up) the frame does not lower the
    altitude, and when it is <= 0 (nose down) a frame that starts at
    altitude >= 2 does not raise it. *)
Theorem update_climbs_with_pitch (p : Airplane) (delta : R) :
  yaw p = 0 ->
  0 <= throttle p <= 1 ->
  0 <= delta ->
  (0 <= pitch (update p delta) -> altitude p <= altitude (update p delta))
  /\ (pitch (update p delta) <= 0 -> 2 <= altitude p ->
      altitude (update p delta) <= altitude p).
Proof.
  intros Hyaw Ht Hd. rewrite (update_vertical p delta Hyaw).
  pose proof (update_pitch_bounds p delta) as Hb.
  pose proof pitch_limit_lt_half_PI as HM. pose proof PI_RGT_0 as Hpi.
  pose proof (lerp_speed_bounds (throttle p) Ht) as Hv.
  assert (Hs : 0 <= MathUtils.lerp 20 150 (throttle p) * delta)
    by (apply Rmult_le_pos; lra).
  split.
  - intros Hup.
    assert (0 <= sin (pitch (update p delta))) by (apply sin_ge_0; lra).
    assert (0 <= sin (pitch (update p delta))
                 * (MathUtils.lerp 20 150 (throttle p) * delta))
      by (apply Rmult_le_pos; lra).
    unfold Rmax; case_Rle; lra.
  - intros Hdown Halt.
    assert (Hsin : 0 <= sin (- pitch (update p delta))) by (apply sin_ge_0; lra).
    rewrite sin_neg in Hsin.
    assert (0 <= - sin (pitch (update p delta))
                 * (MathUtils.lerp 20 150 (throttle p) * delta))
      by (apply Rmult_le_pos; lra).
    unfold Rmax; case_Rle; lra.
Qed.

Lemma update_climbs_with_pitch_witness :
  (0 <= pitch (update at_limits 2) -> altitude at_limits <= altitude (update at_limits 2))
  /\ (pitch (update at_limits 2) <= 0 -> 2 <= altitude at_limits ->
      altitude (update at_limits 2) <= altitude at_limits).
Proof.
  apply (update_climbs_with_pitch at_limits 2).
  - reflexivity.
  - change (throttle at_limits) with 0.3. lra.
  - lra.
Defined.

Lemma update_pitchInput (p : Airplane) (delta : R) :
  pitchInput (update p delta) = clamp (pitchInput p) (-1) 1.
Proof. reflexivity. Qed.

Lemma update_rollInput (p : Airplane) (delta : R) :
  rollInput (update p delta) = clamp (rollInput p) (-1) 1.
Proof. reflexivity. Qed.

(** ** What holds in every reachable state *)

Lemma key_value_clamp (v : R) : key_value v -> clamp v (-1) 1 = v.
Proof. intros [-> | [-> | ->]]; apply clamp_id; lra. Qed.

Lemma new_Airplane_flight_invariant : flight_invariant new_Airplane.
Proof.
  unfold flight_invariant, key_value, yaw; cbn.
  repeat split; try lra; auto.
Qed.

Lemma keydown_flight_invariant (key : string) (p : Airplane) :
  flight_invariant p -> flight_invariant (keydown key p).
Proof.
  intros (Hy & Ht & Hpi & Hri & Hv).
  pose proof (keydown_throttle_bounds key p Ht) as Ht'.
  unfold flight_invariant, yaw in *. rewrite keydown_group.
  split; [exact Hy |]. split; [exact Ht' |].
  clear Ht'. unfold keydown, key_value.
  repeat case_match; cbn [pitchInput rollInput velocity];
    (split; [| split]); first [assumption | left; reflexivity | right; right; reflexivity].
Qed.

Lemma keyup_flight_invariant (key : string) (p : Airplane) :
  flight_invariant p -> flight_invariant (keyup key p).
Proof.
  intros (Hy & Ht & Hpi & Hri & Hv).
  unfold flight_invariant, yaw in *. rewrite keyup_group, keyup_throttle.
  split; [exact Hy |]. split; [exact Ht |].
  unfold keyup, key_value.
  repeat case_match; cbn [pitchInput rollInput velocity];
    (split; [| split]); first [assumption | right; left; reflexivity].
Qed.

Lemma update_flight_invariant (p : Airplane) (delta : R) :
  flight_invariant p -> flight_invariant (update p delta).
Proof.
  intros (Hy & Ht & Hpi & Hri & Hv).
  unfold flight_invariant.
  rewrite update_yaw, update_throttle, update_pitchInput, update_rollInput,
    update_velocity, !key_value_clamp by assumption.
  repeat split; try assumption; try lra.
  right. now apply lerp_speed_bounds.
Qed.

Lemma step_flight_invariant (s : Session) (e : Event) :
  flight_invariant (player s) -> flight_invariant (player (step s e)).
Proof.
  intros Hs. destruct e as [key | key | sel | delta | k | k]; cbn [step].
  - now apply keydown_flight_invariant.
  - now apply keyup_flight_invariant.
  - destruct (onSceneChange_player sel s) as [-> | ->];
      [apply new_Airplane_flight_invariant | exact Hs].
  - now apply update_flight_invariant.
  - unfold textureLoaded. destruct (pendingLoads s !! k); exact Hs.
  - exact Hs.
Qed.

(** X7: in every reachable state the airplane has yaw 0, its throttle
    is in [0,1], both input fields hold -1, 0 or 1, and the speed field
    is 0 (no frame since the airplane was built) or within [20, 150]; so
    the clamp of the inputs at the head of [update] never changes them,
    and the speed after any frame is within [20, 150]. *)
Theorem reachable_flight_invariant (s : Session) (delta : R) :
  reachable s ->
  flight_invariant (player s)
  /\ pitchInput (update (player s) delta) = pitchInput (player s)
  /\ rollInput (update (player s) delta) = rollInput (player s)
  /\ 20 <= velocity (update (player s) delta) <= 150.
Proof.
  intros Hs.
  assert (Hinv : flight_invariant (player s)).
  { induction Hs as [| s e _ IH _]; [apply new_Airplane_flight_invariant |].
    now apply step_flight_invariant. }
  split; [exact Hinv |].
  destruct Hinv as (_ & Ht & Hpi & Hri & _).
  rewrite update_pitchInput, update_rollInput, update_velocity,
    !key_value_clamp by assumption.
  split; [reflexivity |]. split; [reflexivity |]. now apply lerp_speed_bounds.
Qed.

Lemma reachable_flight_invariant_witness :
  flight_invariant (player (step init (KeyDown "a")))
  /\ pitchInput (update (player (step init (KeyDown "a"))) 1)
     = pitchInput (player (step init (KeyDown "a")))
  /\ rollInput (update (player (step init (KeyDown "a"))) 1)
     = rollInput (player (step init (KeyDown "a")))
  /\ 20 <= velocity (update (player (step init (KeyDown "a"))) 1) <= 150.
Proof.
  apply (reachable_flight_invariant (step init (KeyDown "a")) 1).
  apply reachable_step; [apply reachable_init | exact I].
Defined.

(** ** Keys without a [case] label *)

(** X8: a key that is none of the eight [case] labels of the [keyup]
    listener changes nothing when released (so releasing a throttle key
    keeps the throttle), and a key that is also neither ArrowUp nor
    ArrowDown changes nothing when pressed. *)
Theorem unhandled_keys_are_ignored (key : string) (p : Airplane) :
  ~ In key keyup_keys ->
  keyup key p = p
  /\ (key <> "ArrowUp" -> key <> "ArrowDown" -> keydown key p = p).
Proof.
  intros Hnot. split.
  - unfold keyup. repeat case_match; try reflexivity;
      exfalso; apply Hnot; unfold keyup_keys; cbn; auto 10.
  - intros Hup Hdown. unfold keydown. repeat case_match; try reflexivity;
      try (exfalso; apply Hnot; unfold keyup_keys; cbn; auto 10; fail);
      exfalso; auto.
Qed.

Lemma unhandled_keys_are_ignored_witness :
  keyup "Escape" at_limits = at_limits /\ keydown "Escape" at_limits = at_limits.
Proof.
  destruct (unhandled_keys_are_ignored "Escape" at_limits) as [Hup Hdown].
  - unfold keyup_keys. cbn. intros H.
    repeat (destruct H as [H | H]; [discriminate H |]). exact H.
  - split; [exact Hup |]. apply Hdown; discriminate.
Defined.

(** ** Composing a scene *)

Lemma buildScene_ground (def : SceneDefinition)
    (mats : list MeshStandardMaterial) (pending : list PendingLoad) :
  groundMaterial (buildScene def mats pending)
  = Some (mkMaterial (groundColor def) 0.0 1.0 None false).
Proof.
  unfold groundMaterial.
  destruct (buildScene_materials def mats pending) as [-> ->]. cbn [head mbind option_bind].
  now rewrite list_lookup_middle.
Qed.

(** X9: [buildScene] gives the ground a newly created material, none
    of the ground materials created before, with the flat [groundColor],
    metalness 0, roughness 1 and no texture; the ground materials of
    earlier Worlds are left as they were. *)
Theorem buildScene_allocates_flat_ground (def : SceneDefinition)
    (mats : list MeshStandardMaterial) (pending : list PendingLoad) :
  groundMaterial (buildScene def mats pending)
  = Some (mkMaterial (groundColor def) 0.0 1.0 None false)
  /\ (forall g : MaterialRef,
        In g (scene_materials (scene (buildScene def mats pending))) ->
        mats !! g = None)
  /\ (forall (r : MaterialRef) (m : MeshStandardMaterial),
        mats !! r = Some m -> materials (buildScene def mats pending) !! r = Some m).
Proof.
  split; [apply buildScene_ground |].
  destruct (buildScene_materials def mats pending) as [Hm Hg]. rewrite Hm, Hg.
  split.
  - intros g [<- | []]. now apply lookup_ge_None_2.
  - intros r m Hr. now apply lookup_app_l_Some.
Qed.

Lemma onLoad_target (groundMat : MaterialRef) (tex : Texture)
    (mats : list MeshStandardMaterial) (m : MeshStandardMaterial) :
  mats !! groundMat = Some m ->
  onLoad groundMat tex mats !! groundMat
  = Some (mkMaterial (color m) (metalness m) (roughness m)
            (Some (mkTexture (image tex) RepeatWrapping RepeatWrapping (500, 500)))
            true).
Proof.
  unfold MaterialRef in *. intros Hm. unfold onLoad.
  rewrite list_lookup_alter_eq, Hm. reflexivity.
Qed.

(** X10: when a scene definition names a ground texture, [buildScene]
    starts exactly one load, queued after the loads already in flight;
    once that load completes the ground material keeps its colour,
    metalness and roughness and carries the texture with both wrap modes
    set to repeat and a 500 x 500 tiling. *)
Theorem texture_is_applied_to_its_ground (def : SceneDefinition) (u : string)
    (mats : list MeshStandardMaterial) (pending : list PendingLoad) :
  truthy (groundTexture def) = Some u ->
  pendingLoads (buildScene def mats pending)
  = pending ++ [mkPendingLoad u (length mats)]
  /\ groundMaterial (step (buildScene def mats pending)
                          (TextureLoaded (length pending)))
     = Some (mkMaterial (groundColor def) 0.0 1.0
               (Some (mkTexture u RepeatWrapping RepeatWrapping (500, 500))) true)
  /\ pendingLoads (step (buildScene def mats pending) (TextureLoaded (length pending)))
     = pending.
Proof.
  intros Hu.
  pose proof (buildScene_load_targets_own_ground def mats pending u Hu) as Hp.
  split; [exact Hp |].
  cbn [step]. unfold textureLoaded. rewrite Hp, list_lookup_middle by reflexivity.
  cbn [target url]. split.
  - unfold groundMaterial; cbn [scene materials].
    destruct (buildScene_materials def mats pending) as [Hm ->]. rewrite Hm.
    cbn [head mbind option_bind].
    rewrite (onLoad_target _ _ _ (mkMaterial (groundColor def) 0.0 1.0 None false));
      [reflexivity |].
    now rewrite list_lookup_middle.
  - cbn [pendingLoads].
    rewrite delete_middle. apply app_nil_r.
Qed.

Lemma texture_is_applied_to_its_ground_witness :
  pendingLoads (buildScene desert (materials init) (pendingLoads init))
  = pendingLoads init ++ [mkPendingLoad "assets/desert.png" (length (materials init))]
  /\ groundMaterial (step (buildScene desert (materials init) (pendingLoads init))
                          (TextureLoaded (length (pendingLoads init))))
     = Some (mkMaterial (groundColor desert) 0.0 1.0
               (Some (mkTexture "assets/desert.png" RepeatWrapping RepeatWrapping
                                (500, 500))) true)
  /\ pendingLoads (step (buildScene desert (materials init) (pendingLoads init))
                        (TextureLoaded (length (pendingLoads init))))
     = pendingLoads init.
Proof.
  apply (texture_is_applied_to_its_ground desert "assets/desert.png"
           (materials init) (pendingLoads init)).
  reflexivity.
Defined.

(** X11: a scene definition without a ground texture (the field absent,
    or the empty string) starts no load, and the scene graph composed is
    the same as for the definition with a texture. *)
Theorem no_texture_no_load (def : SceneDefinition) (u : string)
    (mats : list MeshStandardMaterial) (pending : list PendingLoad) :
  groundTexture def = None \/ groundTexture def = Some "" ->
  pendingLoads (buildScene def mats pending) = pending
  /\ scene (buildScene def mats pending)
     = scene (buildScene
                (mkSceneDefinition (id def) (name def) (skyColor def) (fogColor def)
                   (groundColor def) (ambient def) (directional def) (Some u))
                mats pending)
  /\ groundMaterial (buildScene def mats pending)
     = Some (mkMaterial (groundColor def) 0.0 1.0 None false).
Proof.
  intros Hnone. split; [| split; [reflexivity | apply buildScene_ground]].
  unfold buildScene; cbn [pendingLoads].
  destruct Hnone as [-> | ->]; reflexivity.
Qed.

Lemma no_texture_no_load_witness :
  pendingLoads
    (buildScene (mkSceneDefinition "coast" "Coast" 1 2 3 4 5 None)
       (materials init) (pendingLoads init))
  = pendingLoads init
  /\ scene (buildScene (mkSceneDefinition "coast" "Coast" 1 2 3 4 5 None)
              (materials init) (pendingLoads init))
     = scene (buildScene (mkSceneDefinition "coast" "Coast" 1 2 3 4 5 (Some "a.png"))
                (materials init) (pendingLoads init))
  /\ groundMaterial (buildScene (mkSceneDefinition "coast" "Coast" 1 2 3 4 5 None)
                       (materials init) (pendingLoads init))
     = Some (mkMaterial 3 0.0 1.0 None false).
Proof.
  apply (no_texture_no_load (mkSceneDefinition "coast" "Coast" 1 2 3 4 5 None) "a.png"
           (materials init) (pendingLoads init)).
  left. reflexivity.
Defined.

Lemma buildScene_appearance (def : SceneDefinition)
    (mats : list MeshStandardMaterial) (pending : list PendingLoad) :
  appearance (buildScene def mats pending) = appearance (buildScene def [] []).
Proof.
  unfold appearance, World.
  destruct (buildScene_materials def mats pending) as [Hm Hg]. rewrite Hm, Hg.
  cbn [fmap list_fmap snd]. rewrite list_lookup_middle by reflexivity.
  reflexivity.
Qed.

(** X12: composition is repeatable: selecting a catalogue scene and,
    after any events at all (frames, keys, other scene switches,
    textures arriving), selecting the same scene again gives a World
    with the same background, fog, lights and ground parameters as the
    first time, the ground flat-coloured again. *)
Theorem recomposition_reproduces_appearance
    (s : Session) (def : SceneDefinition) (es : list Event) :
  In def SCENES ->
  appearance (step (run (step s (SceneChange (id def))) es) (SceneChange (id def)))
  = appearance (step s (SceneChange (id def))).
Proof.
  intros Hdef. cbn [step]. unfold onSceneChange.
  rewrite (find_scene_catalogue def Hdef).
  rewrite !(buildScene_appearance def (materials _)). reflexivity.
Qed.

Lemma recomposition_reproduces_appearance_witness :
  appearance (step (run (step init (SceneChange (id alps)))
                        [Frame 1; TextureLoaded 1; SceneChange "desert"])
                   (SceneChange (id alps)))
  = appearance (step init (SceneChange (id alps))).
Proof.
  apply (recomposition_reproduces_appearance init alps
           [Frame 1; TextureLoaded 1; SceneChange "desert"]).
  right. left. reflexivity.
Defined.

(** ** The store in reachable states *)

Lemma step_scene_ok (s : Session) (e : Event) : scene_ok s -> scene_ok (step s e).
Proof.
  intros (g & Hg & Hlen).
  destruct e as [key | key | sel | delta | k | k]; cbn [step];
    try (exists g; split; assumption).
  - unfold onSceneChange. destruct (find_scene sel) as [def |];
      [| exists g; split; assumption].
    exists (length (materials s)).
    destruct (buildScene_materials def (materials s) (pendingLoads s)) as [-> ->].
    split; [reflexivity |]. rewrite List.length_app; cbn [length]. lia.
  - unfold textureLoaded. destruct (pendingLoads s !! k) as [l |];
      [| exists g; split; assumption].
    exists g. cbn [scene materials]. rewrite onLoad_length. split; assumption.
Qed.

Lemma reachable_scene_ok (s : Session) : reachable s -> scene_ok s.
Proof.
  induction 1 as [| s e _ IH _]; [| now apply step_scene_ok].
  exists 0%nat. split; reflexivity.
Qed.

Lemma scene_ok_ground (s : Session) :
  scene_ok s ->
  exists (g : MaterialRef) (m : MeshStandardMaterial),
    scene_materials (scene s) = [g] /\ materials s !! g = Some m
    /\ groundMaterial s = Some m.
Proof.
  intros (g & Hg & Hlen).
  destruct (lookup_lt_is_Some_2 (materials s) g) as [m Hm]; [lia |].
  exists g, m. split; [exact Hg |]. split; [exact Hm |].
  unfold groundMaterial. rewrite Hg. exact Hm.
Qed.

(** X14: in a reachable state, when a load completes whose target is
    the ground material of the current scene, the ground keeps its
    colour, metalness and roughness and gets the loaded texture, tiled
    500 x 500 with repeat wrapping; nothing else of the World changes. *)
Theorem current_texture_load_is_applied (s : Session) (k : nat) (l : PendingLoad) :
  reachable s ->
  pendingLoads s !! k = Some l ->
  In (target l) (scene_materials (scene s)) ->
  exists m : MeshStandardMaterial,
    groundMaterial s = Some m
    /\ groundMaterial (step s (TextureLoaded k))
       = Some (mkMaterial (color m) (metalness m) (roughness m)
                 (Some (mkTexture (url l) RepeatWrapping RepeatWrapping (500, 500)))
                 true)
    /\ scene (step s (TextureLoaded k)) = scene s
    /\ player (step s (TextureLoaded k)) = player s.
Proof.
  intros Hs Hk Hin.
  destruct (scene_ok_ground s (reachable_scene_ok s Hs)) as (g & m & Hg & Hm & Hgm).
  rewrite Hg in Hin. destruct Hin as [Heq | []].
  exists m. split; [exact Hgm |].
  cbn [step]. unfold textureLoaded. rewrite Hk, <- Heq. cbn [scene player].
  split; [| split; reflexivity].
  unfold groundMaterial; cbn [scene materials]. rewrite Hg.
  cbn [head mbind option_bind].
  now rewrite (onLoad_target _ _ _ m Hm).
Qed.

Lemma current_texture_load_is_applied_witness :
  exists m : MeshStandardMaterial,
    groundMaterial init = Some m
    /\ groundMaterial (step init (TextureLoaded 0))
       = Some (mkMaterial (color m) (metalness m) (roughness m)
                 (Some (mkTexture (url coast_load) RepeatWrapping RepeatWrapping
                                  (500, 500)))
                 true)
    /\ scene (step init (TextureLoaded 0)) = scene init
    /\ player (step init (TextureLoaded 0)) = player init.
Proof.
  apply (current_texture_load_is_applied init 0 coast_load).
  - apply reachable_init.
  - reflexivity.
  - left. reflexivity.
Defined.

(** * The HTTP server *)

Lemma serveStatic_served (node : Server.Node) (reqPath : string) (r : Server.Response) :
  Server.serveStatic node reqPath = Some r ->
  let filePath :=
    Server.join node (Server.publicDir node)
      (Server.strip_leading_dots (Server.normalize node reqPath)) in
  Server.startsWith filePath (Server.publicDir node) = true
  /\ Server.status r = 200%Z
  /\ In ("Access-Control-Allow-Origin", "*") (Server.headers r)
  /\ exists (f data : string),
       Server.body r = Server.File data
       /\ Server.readFileSync node f = Some data
       /\ Server.existsSync node f = true
       /\ (f = filePath
           \/ f = Server.join node (Server.publicDir node) "index.html").
Proof.
  cbn zeta. unfold Server.serveStatic.
  destruct (Server.startsWith _ _) eqn:Hin; cbn [negb]; [| discriminate].
  destruct (Server.existsSync node _ && Server.isFile node _) eqn:Hfile.
  - apply andb_prop in Hfile as [Hex _].
    destruct (Server.readFileSync node _) as [data |] eqn:Hread; [| discriminate].
    intros [= <-]. cbn. repeat split; auto. eauto 10.
  - destruct (Server.existsSync node (Server.join node _ "index.html")) eqn:Hex;
      [| discriminate].
    destruct (Server.readFileSync node _) as [data |] eqn:Hread; [| discriminate].
    intros [= <-]. cbn. repeat split; auto. eauto 10.
Qed.

(** X17: every response the listener sends, static files included,
    carries the header Access-Control-Allow-Origin: *. *)
Theorem every_response_allows_any_origin (node : Server.Node) (req : Server.Request) :
  In ("Access-Control-Allow-Origin", "*")
     (Server.headers (fst (Server.handle node req))).
Proof.
  unfold Server.handle.
  repeat (case_decide; [cbn; auto |]).
  all: repeat case_match; cbn; auto.
  all: match goal with
       | H : Server.serveStatic _ _ = Some _ |- _ =>
           apply serveStatic_served in H as (_ & _ & Hh & _); exact Hh
       end.
Qed.

Lemma server_find_scene_known (entry : Server.SceneEntry) :
  In entry Server.scenes ->
  Server.find_scene (Server.QString (Server.id entry)) = Some entry.
Proof. intros [<- | [<- | [<- | []]]]; reflexivity. Qed.

Lemma server_find_scene_unknown (q : Server.QueryValue) :
  (forall entry, In entry Server.scenes -> q <> Server.QString (Server.id entry)) ->
  Server.find_scene q = None.
Proof.
  intros Hnone. destruct q as [| v | items]; try reflexivity.
  unfold Server.find_scene.
  destruct (List.find _ Server.scenes) as [entry |] eqn:Hfind; [| reflexivity].
  apply List.find_some in Hfind as [Hin Hid].
  apply bool_decide_eq_true in Hid. subst v.
  now destruct (Hnone entry Hin).
Qed.

(** X18: GET /api/presets answers 200 with the weather and time presets
    of the scene whose id is the [scene] parameter, and 404 'Scene not
    found' when the parameter is absent, repeated, or no scene's id;
    nothing is logged either way. *)
Theorem presets_by_scene (node : Server.Node) (req : Server.Request) :
  Server.method req = "GET" ->
  Server.pathname req = "/api/presets" ->
  (forall entry : Server.SceneEntry,
     In entry Server.scenes ->
     Server.query_scene req = Server.QString (Server.id entry) ->
     Server.handle node req
     = (Server.sendJSON 200 (Server.presets_json (Server.presets entry)), []))
  /\ ((forall entry : Server.SceneEntry,
         In entry Server.scenes ->
         Server.query_scene req <> Server.QString (Server.id entry)) ->
      Server.handle node req
      = (Server.sendJSON 404
           (Server.JObject [("error", Server.JString "Scene not found")]), [])).
Proof.
  intros Hm Hp. unfold Server.handle. rewrite Hm, Hp.
  destruct (decide ("GET" = "OPTIONS")) as [Habs | _]; [discriminate Habs |].
  destruct (decide ("GET" = "GET" /\ "/api/presets" = "/api/scenes"))
    as [[_ Habs] | _]; [discriminate Habs |].
  destruct (decide ("GET" = "GET" /\ "/api/presets" = "/api/presets"))
    as [_ | Habs]; [| now destruct Habs].
  split.
  - intros entry Hin ->. now rewrite (server_find_scene_known entry Hin).
  - intros Hnone. now rewrite (server_find_scene_unknown _ Hnone).
Qed.

Lemma presets_by_scene_witness :
  Server.handle Server.sample_node
    (Server.mkRequest "GET" "/api/presets" (Server.QString "alps") [])
  = (Server.sendJSON 200
       (Server.presets_json
          (Server.mkPresets ["clair"; "neige"; "brumeux"]
                            ["aube"; "midi"; "golden hour"; "nuit"])), [])
  /\ Server.handle Server.sample_node
       (Server.mkRequest "GET" "/api/presets" (Server.QArray ["alps"; "coast"]) [])
     = (Server.sendJSON 404
          (Server.JObject [("error", Server.JString "Scene not found")]), []).
Proof.
  split.
  - destruct (presets_by_scene Server.sample_node
                (Server.mkRequest "GET" "/api/presets" (Server.QString "alps") []))
      as [Hknown _]; [reflexivity | reflexivity |].
    apply (Hknown (Server.mkSceneEntry "alps" "Alpes d’ardoise"
                     (Server.mkPresets ["clair"; "neige"; "brumeux"]
                                       ["aube"; "midi"; "golden hour"; "nuit"]))).
    + right. left. reflexivity.
    + reflexivity.
  - destruct (presets_by_scene Server.sample_node
                (Server.mkRequest "GET" "/api/presets"
                   (Server.QArray ["alps"; "coast"]) []))
      as [_ Hunknown]; [reflexivity | reflexivity |].
    apply Hunknown. intros entry _. discriminate.
Defined.

(** X19: a POST to /api/telemetry is answered 200 {status: 'ok'}, with
    the parsed value logged, when the body (the decoded chunks appended
    in order) parses as JSON, and 400 {error: 'Invalid JSON'} with
    nothing logged when parsing throws. *)
Theorem telemetry_accepts_exactly_valid_json
    (node : Server.Node) (req : Server.Request) :
  Server.method req = "POST" ->
  Server.pathname req = "/api/telemetry" ->
  (forall data : Server.JSON,
     Server.JSON_parse node (Server.read_body (Server.chunks req)) = Some data ->
     Server.handle node req
     = (Server.sendJSON 200 (Server.JObject [("status", Server.JString "ok")]),
        [data]))
  /\ (Server.JSON_parse node (Server.read_body (Server.chunks req)) = None ->
      Server.handle node req
      = (Server.sendJSON 400 (Server.JObject [("error", Server.JString "Invalid JSON")]),
         [])).
Proof.
  intros Hm Hp. unfold Server.handle. rewrite Hm, Hp.
  destruct (decide ("POST" = "OPTIONS")) as [Habs | _]; [discriminate Habs |].
  destruct (decide ("POST" = "GET" /\ "/api/telemetry" = "/api/scenes"))
    as [[Habs _] | _]; [discriminate Habs |].
  destruct (decide ("POST" = "GET" /\ "/api/telemetry" = "/api/presets"))
    as [[Habs _] | _]; [discriminate Habs |].
  destruct (decide ("POST" = "POST" /\ "/api/telemetry" = "/api/telemetry"))
    as [_ | Habs]; [| now destruct Habs].
  split; [intros data -> | intros ->]; reflexivity.
Qed.

Lemma telemetry_accepts_exactly_valid_json_witness :
  Server.handle Server.sample_node
    (Server.mkRequest "POST" "/api/telemetry" Server.QAbsent ["{"; "}"])
  = (Server.sendJSON 200 (Server.JObject [("status", Server.JString "ok")]),
     [Server.JObject []])
  /\ Server.handle Server.sample_node
       (Server.mkRequest "POST" "/api/telemetry" Server.QAbsent ["{"; "oops"])
     = (Server.sendJSON 400 (Server.JObject [("error", Server.JString "Invalid JSON")]),
        []).
Proof.
  split.
  - destruct (telemetry_accepts_exactly_valid_json Server.sample_node
                (Server.mkRequest "POST" "/api/telemetry" Server.QAbsent ["{"; "}"]))
      as [Hok _].
    + reflexivity.
    + reflexivity.
    + apply Hok. reflexivity.
  - destruct (telemetry_accepts_exactly_valid_json Server.sample_node
                (Server.mkRequest "POST" "/api/telemetry" Server.QAbsent ["{"; "oops"]))
      as [_ Hbad].
    + reflexivity.
    + reflexivity.
    + apply Hbad. reflexivity.
Defined.

Lemma handle_static (node : Server.Node) (req : Server.Request) :
  Server.method req = "GET" ->
  Server.pathname req <> "/api/scenes" ->
  Server.pathname req <> "/api/presets" ->
  Server.handle node req
  = match Server.serveStatic node
            (if decide (Server.pathname req = "/") then "/index.html"
             else Server.pathname req) with
    | Some served => (served, [])
    | None =>
        (Server.sendJSON 404 (Server.JObject [("error", Server.JString "Not found")]),
         [])
    end.
Proof.
  intros Hm Hs Hp. unfold Server.handle. rewrite Hm.
  destruct (decide ("GET" = "OPTIONS")) as [Habs | _]; [discriminate Habs |].
  destruct (decide ("GET" = "GET" /\ _ = "/api/scenes")) as [[_ Habs] | _];
    [now destruct Hs |].
  destruct (decide ("GET" = "GET" /\ _ = "/api/presets")) as [[_ Habs] | _];
    [now destruct Hp |].
  destruct (decide ("GET" = "POST" /\ _)) as [[Habs _] | _]; [discriminate Habs |].
  destruct (decide ("GET" = "GET")) as [_ | Habs]; [reflexivity | now destruct Habs].
Qed.

(** X21: a GET whose normalised path, joined to the public directory,
    does not start with the public directory is answered 404 without
    any file being read, even when index.html exists; and whenever a
    file is sent, it was read from that joined path or from index.html
    of the public directory, and the joined path did start with the
    public directory. *)
Theorem static_files_stay_in_publicDir (node : Server.Node) (req : Server.Request) :
  Server.method req = "GET" ->
  Server.pathname req <> "/" ->
  Server.pathname req <> "/api/scenes" ->
  Server.pathname req <> "/api/presets" ->
  (Server.startsWith
     (Server.join node (Server.publicDir node)
        (Server.strip_leading_dots (Server.normalize node (Server.pathname req))))
     (Server.publicDir node) = false ->
   Server.handle node req
   = (Server.sendJSON 404 (Server.JObject [("error", Server.JString "Not found")]), []))
  /\ (forall data : string,
        Server.body (fst (Server.handle node req)) = Server.File data ->
        Server.startsWith
          (Server.join node (Server.publicDir node)
             (Server.strip_leading_dots (Server.normalize node (Server.pathname req))))
          (Server.publicDir node) = true
        /\ exists f : string,
             Server.readFileSync node f = Some data
             /\ (f = Server.join node (Server.publicDir node)
                       (Server.strip_leading_dots
                          (Server.normalize node (Server.pathname req)))
                 \/ f = Server.join node (Server.publicDir node) "index.html")).
Proof.
  intros Hm Hroot Hs Hp. rewrite (handle_static node req Hm Hs Hp).
  destruct (decide (Server.pathname req = "/")) as [Habs | _]; [now destruct Hroot |].
  split.
  - intros Hout. unfold Server.serveStatic. now rewrite Hout.
  - intros data Hbody.
    destruct (Server.serveStatic node (Server.pathname req)) as [r |] eqn:Hserved;
      cbn [fst] in Hbody; [| discriminate Hbody].
    apply serveStatic_served in Hserved
      as (Hin & _ & _ & f & data' & Hb & Hread & _ & Hf).
    rewrite Hb in Hbody. injection Hbody as ->.
    split; [exact Hin |]. now exists f.
Qed.

Lemma static_files_stay_in_publicDir_witness :
  (Server.startsWith
     (Server.join Server.sample_node (Server.publicDir Server.sample_node)
        (Server.strip_leading_dots (Server.normalize Server.sample_node "/app.js")))
     (Server.publicDir Server.sample_node) = false ->
   Server.handle Server.sample_node (Server.mkRequest "GET" "/app.js" Server.QAbsent [])
   = (Server.sendJSON 404 (Server.JObject [("error", Server.JString "Not found")]), []))
  /\ (forall data : string,
        Server.body (fst (Server.handle Server.sample_node
                            (Server.mkRequest "GET" "/app.js" Server.QAbsent [])))
        = Server.File data ->
        Server.startsWith
          (Server.join Server.sample_node (Server.publicDir Server.sample_node)
             (Server.strip_leading_dots (Server.normalize Server.sample_node "/app.js")))
          (Server.publicDir Server.sample_node) = true
        /\ exists f : string,
             Server.readFileSync Server.sample_node f = Some data
             /\ (f = Server.join Server.sample_node (Server.publicDir Server.sample_node)
                       (Server.strip_leading_dots
                          (Server.normalize Server.sample_node "/app.js"))
                 \/ f = Server.join Server.sample_node
                          (Server.publicDir Server.sample_node) "index.html")).
Proof.
  apply (static_files_stay_in_publicDir Server.sample_node
           (Server.mkRequest "GET" "/app.js" Server.QAbsent [])).
  - reflexivity.
  - cbn; discriminate.
  - cbn; discriminate.
  - cbn; discriminate.
Defined.

(** X22: for a GET outside the two API routes whose joined path lies in
    the public directory: when no file is there and index.html exists
    and can be read, index.html is sent with status 200 as text/html;
    when a file is there but cannot be read, the answer is 404 and
    index.html is not tried. *)
Theorem missing_file_falls_back_to_index
    (node : Server.Node) (req : Server.Request) (page : string) :
  Server.method req = "GET" ->
  Server.pathname req <> "/" ->
  Server.pathname req <> "/api/scenes" ->
  Server.pathname req <> "/api/presets" ->
  Server.startsWith
    (Server.join node (Server.publicDir node)
       (Server.strip_leading_dots (Server.normalize node (Server.pathname req))))
    (Server.publicDir node) = true ->
  Server.existsSync node (Server.join node (Server.publicDir node) "index.html") = true ->
  Server.readFileSync node (Server.join node (Server.publicDir node) "index.html")
  = Some page ->
  let filePath :=
    Server.join node (Server.publicDir node)
      (Server.strip_leading_dots (Server.normalize node (Server.pathname req))) in
  (Server.existsSync node filePath && Server.isFile node filePath = false ->
   Server.handle node req
   = (Server.mkResponse 200
        [("Content-Type", "text/html"); ("Access-Control-Allow-Origin", "*")]
        (Server.File page), []))
  /\ (Server.existsSync node filePath && Server.isFile node filePath = true ->
      Server.readFileSync node filePath = None ->
      Server.handle node req
      = (Server.sendJSON 404 (Server.JObject [("error", Server.JString "Not found")]),
         [])).
Proof.
  intros Hm Hroot Hs Hp Hin Hex Hread. cbn zeta.
  rewrite (handle_static node req Hm Hs Hp).
  destruct (decide (Server.pathname req = "/")) as [Habs | _]; [now destruct Hroot |].
  unfold Server.serveStatic. rewrite Hin. cbn [negb].
  split.
  - intros ->. now rewrite Hex, Hread.
  - intros -> Hfail. now rewrite Hfail.
Qed.

Lemma missing_file_falls_back_to_index_witness :
  Server.handle Server.sample_node
    (Server.mkRequest "GET" "/flights/42" Server.QAbsent [])
  = (Server.mkResponse 200
       [("Content-Type", "text/html"); ("Access-Control-Allow-Origin", "*")]
       (Server.File "<html>"), []).
Proof.
  destruct (missing_file_falls_back_to_index Server.sample_node
              (Server.mkRequest "GET" "/flights/42" Server.QAbsent []) "<html>")
    as [Hfallback _].
  - reflexivity.
  - cbn; discriminate.
  - cbn; discriminate.
  - cbn; discriminate.
  - reflexivity.
  - reflexivity.
  - reflexivity.
  - apply Hfallback. reflexivity.
Defined.

Lemma strip_leading_dots_dot (rest : string) :
  Server.strip_leading_dots (String Server.dot rest) = Server.strip_leading_dots rest.
Proof. reflexivity. Qed.

Lemma strip_leading_dots_other (a : Ascii.ascii) (rest : string) :
  a <> Server.dot -> Server.strip_leading_dots (String a rest) = String a rest.
Proof.
  intros Ha. destruct a as [[] [] [] [] [] [] [] []]; try reflexivity.
  now destruct Ha.
Qed.

(** X23: the sanitiser of [serveStatic] removes exactly the dots a path
    starts with: the result never starts with a dot, stripping twice is
    stripping once, one more dot in front changes nothing, and the path
    is a run of dots followed by the result. *)
Theorem strip_leading_dots_spec (path : string) :
  String.prefix "." (Server.strip_leading_dots path) = false
  /\ Server.strip_leading_dots (Server.strip_leading_dots path)
     = Server.strip_leading_dots path
  /\ Server.strip_leading_dots (String.append "." path) = Server.strip_leading_dots path
  /\ exists n : nat,
       path = String.append (String.concat "" (replicate n "."%string))
                            (Server.strip_leading_dots path).
Proof.
  induction path as [| a rest (IH1 & IH2 & _ & n & IHn)].
  - repeat split; try reflexivity. now exists 0%nat.
  - change (String.append "." (String a rest)) with (String Server.dot (String a rest)).
    destruct (Ascii.ascii_dec a Server.dot) as [-> | Ha].
    + rewrite !strip_leading_dots_dot.
      split; [exact IH1 |]. split; [exact IH2 |]. split; [reflexivity |].
      exists (S n). rewrite IHn at 1. clear.
      destruct n as [| n]; reflexivity.
    + rewrite strip_leading_dots_dot, !(strip_leading_dots_other a rest Ha).
      split.
      * destruct a as [[] [] [] [] [] [] [] []]; try reflexivity. now destruct Ha.
      * split; [reflexivity |]. split; [reflexivity |]. now exists 0%nat.
Qed.

(** X24: the server's scene list is the client's catalogue: the same
    ids and names in the same order, so /api/scenes lists what the
    selector offers and every scene the client can select has presets
    (status 200) on the server. *)
Theorem server_lists_client_catalogue (node : Server.Node) (def : SceneDefinition) :
  In def SCENES ->
  (fun s => (Server.id s, Server.name s)) <$> Server.scenes
  = (fun d => (id d, name d)) <$> SCENES
  /\ fst (Server.handle node (Server.mkRequest "GET" "/api/scenes" Server.QAbsent []))
     = Server.sendJSON 200
         (Server.JArray
            ((fun d => Server.JObject [("id", Server.JString (id d));
                                       ("name", Server.JString (name d))]) <$> SCENES))
  /\ exists entry : Server.SceneEntry,
       In entry Server.scenes /\ Server.id entry = id def
       /\ Server.handle node
            (Server.mkRequest "GET" "/api/presets" (Server.QString (id def)) [])
          = (Server.sendJSON 200 (Server.presets_json (Server.presets entry)), []).
Proof.
  intros Hdef. split; [reflexivity |]. split; [reflexivity |].
  destruct Hdef as [<- | [<- | [<- | []]]].
  - eexists. split; [left; reflexivity |]. split; reflexivity.
  - eexists. split; [right; left; reflexivity |]. split; reflexivity.
  - eexists. split; [right; right; left; reflexivity |]. split; reflexivity.
Qed.

Lemma server_lists_client_catalogue_witness :
  exists entry : Server.SceneEntry,
    In entry Server.scenes /\ Server.id entry = id desert
    /\ Server.handle Server.sample_node
         (Server.mkRequest "GET" "/api/presets" (Server.QString (id desert)) [])
       = (Server.sendJSON 200 (Server.presets_json (Server.presets entry)), []).
Proof.
  apply (server_lists_client_catalogue Server.sample_node desert).
  right. right. left. reflexivity.
Defined.
